(** * renderer.py: rendering NetHack TTY observations as images

    A shallow embedding of [src/renderer.py] and the properties of its
    colour resolution, glyph cache and tile composition.

    Conventions of the embedding
    - Python integers and numpy cells are [Z]; [&] is [Z.land].
    - An RGB colour is a triple of [Z].  numpy stores the special-background
      table as float64 and the palette as int64; the values are the same
      whole numbers and compare (and hash) equal as cache keys, so both are
      triples of [Z] here.
    - A 2-d numpy array is a list of rows, an image a list of rows of
      pixels.
    - A Python exception is a value [Raise e]; the glyph cache is threaded
      explicitly, and survives an exception.
    - A one-character Python [str] is its code point: [chr] is injective. *)

From Stdlib Require Import Ascii String ZArith Lia.
From stdpp Require Import base option list strings gmap.

Local Open Scope Z_scope.

(** ** Exceptions and results *)

Inductive exn : Set :=
  | IndexError
  | KeyError
  | ValueError
  | StructError.

Inductive result (A : Type) : Type :=
  | Ok (a : A)
  | Raise (e : exn).
Arguments Ok {A} a.
Arguments Raise {A} e.

Definition rbind {A B} (r : result A) (k : A → result B) : result B :=
  match r with
  | Ok a => k a
  | Raise e => Raise e
  end.

#[global] Instance result_ret : MRet result := @Ok.
#[global] Instance result_bind : MBind result := λ A B k r, rbind r k.

Definition is_ok {A} (r : result A) : Prop := ∃ a, r = Ok a.

Fixpoint rmapM {A B} (f : A → result B) (l : list A) : result (list B) :=
  match l with
  | [] => Ok []
  | x :: l' =>
      match f x with
      | Ok y =>
          match rmapM f l' with
          | Ok ys => Ok (y :: ys)
          | Raise e => Raise e
          end
      | Raise e => Raise e
      end
  end.

(** ** Colours *)

Abbreviation rgb := (Z * Z * Z)%type (only parsing).

Definition FOREGROUND_COLORS : list string :=
  [ "#000000"; "#770000"; "#007700"; "#aa7700";
    "#000077"; "#aa00aa"; "#00aaaa"; "#ffffff";
    "#888888"; "#ff0000"; "#00ff00"; "#ffff00";
    "#0000ff"; "#ff00ff"; "#00ffff"; "#ffffff" ]%string.

(** The literal [dict(...)], in its insertion order. *)
Definition BACKGROUND_COLORS : list (string * string) :=
  [ ("cursor", "#555555"); ("corpse", "#0000aa"); ("invis", "#333333");
    ("detect", "#333333"); ("pet", "#ffffff"); ("ridden", "#333333");
    ("statue", "#333333"); ("objpile", "#333333"); ("bwlava", "#330000");
    ("default", "#000000") ]%string.

(** *** [int(s, 16)]

    On strings of ASCII hexadecimal digits; the empty string and any other
    character raise [ValueError].  (Python's [int] also accepts a sign, a
    [0x] prefix, single underscores and surrounding white space; the palette
    strings use none of these and they are not embedded.) *)

Definition hex_digit (c : ascii) : option Z :=
  let n := Z.of_N (N_of_ascii c) in
  if (48 <=? n) && (n <=? 57) then Some (n - 48)
  else if (97 <=? n) && (n <=? 102) then Some (n - 87)
  else if (65 <=? n) && (n <=? 70) then Some (n - 55)
  else None.

Fixpoint int16_digits (acc : Z) (s : string) : result Z :=
  match s with
  | EmptyString => Ok acc
  | String c s' =>
      match hex_digit c with
      | Some d => int16_digits (16 * acc + d) s'
      | None => Raise ValueError
      end
  end.

Definition int16 (s : string) : result Z :=
  match s with
  | EmptyString => Raise ValueError
  | _ => int16_digits 0 s
  end.

(** [s[1:]] *)
Definition str_tail (s : string) : string :=
  match s with
  | EmptyString => EmptyString
  | String _ s' => s'
  end.

(** *** [struct.pack('I', n)] and [struct.unpack('4B', b)]

    ['I'] is the native unsigned int: four bytes in the byte order of the
    host ([sys.byteorder]).  Values outside [0, 2^32) raise [struct.error]. *)

Inductive byteorder : Set := little | big.

Definition byte_of (n : Z) (i : Z) : Z := Z.land (Z.shiftr n (8 * i)) 255.

Definition pack_I (host : byteorder) (n : Z) : result (list Z) :=
  if (0 <=? n) && (n <? 2 ^ 32) then
    Ok match host with
       | little => [byte_of n 0; byte_of n 1; byte_of n 2; byte_of n 3]
       | big => [byte_of n 3; byte_of n 2; byte_of n 1; byte_of n 0]
       end
  else Raise StructError.

Definition unpack_4B (b : list Z) : result (Z * Z * Z * Z) :=
  match b with
  | [b0; b1; b2; b3] => Ok (b0, b1, b2, b3)
  | _ => Raise StructError
  end.

Definition hex_string_to_color_tuple (host : byteorder) (hex_string : string)
  : result rgb :=
  color_three_bytes ← int16 (str_tail hex_string);
  packed ← pack_I host color_three_bytes;
  '(blue, green, red, _) ← unpack_4B packed;
  mret (red, green, blue).

(** ** Special flags *)

(** The glyph flag masks of [nle._pynethack.nethack]: constants of the
    NetHack Learning Environment, not of this repository. *)
Record glyph_flags : Set := {
  MG_CORPSE : Z;
  MG_INVIS : Z;
  MG_DETECT : Z;
  MG_PET : Z;
  MG_RIDDEN : Z;
  MG_STATUE : Z;
  MG_OBJPILE : Z;
  MG_BW_LAVA : Z
}.

(** Their values in NetHack 3.6 ([include/hack.h]). *)
Definition nethack : glyph_flags :=
  {| MG_CORPSE := 0x01; MG_INVIS := 0x02; MG_DETECT := 0x04; MG_PET := 0x08;
     MG_RIDDEN := 0x10; MG_STATUE := 0x20; MG_OBJPILE := 0x40;
     MG_BW_LAVA := 0x80 |}.

(** Python's [bool(n)] on an integer. *)
Definition py_bool (n : Z) : bool := negb (n =? 0).

Definition get_special_background (nh : glyph_flags) (special : Z) : string :=
  if py_bool (Z.land special (MG_CORPSE nh)) then "corpse"
  else if py_bool (Z.land special (MG_INVIS nh)) then "invis"
  else if py_bool (Z.land special (MG_DETECT nh)) then "detect"
  else if py_bool (Z.land special (MG_PET nh)) then "pet"
  else if py_bool (Z.land special (MG_RIDDEN nh)) then "ridden"
  else if py_bool (Z.land special (MG_STATUE nh)) then "statue"
  else if py_bool (Z.land special (MG_OBJPILE nh)) then "objpile"
  else if py_bool (Z.land special (MG_BW_LAVA nh)) then "bwlava"
  else "default".

(** ** Characters *)

(** Python's [ord] on a one-character string. *)
Definition ord (c : ascii) : Z := Z.of_N (N_of_ascii c).

Definition represent_char (c : Z) : Z :=
  if c =? 0 then ord " "
  else if c =? ord "`" then ord "0"
  else c.

(** [chr(n)]: a one-character string, kept as its code point. *)
Definition chr (n : Z) : result Z :=
  if (0 <=? n) && (n <? 0x110000) then Ok n else Raise ValueError.

(** ** numpy arrays *)

Abbreviation grid := (list (list Z)) (only parsing).
Abbreviation image := (list (list rgb)) (only parsing).

(** The length of axis 1.  (An array without rows is taken to have no
    columns.) *)
Definition width {A} (a : list (list A)) : nat :=
  match a with
  | [] => 0%nat
  | r :: _ => length r
  end.

(** [np.clip(a, lo, hi)] is [minimum(maximum(a, lo), hi)]. *)
Definition clip (lo hi v : Z) : Z := Z.min hi (Z.max lo v).

Definition np_clip (a : grid) (lo hi : Z) : grid :=
  (λ row : list Z, clip lo hi <$> row) <$> a.

(** [np.pad(a, [[top, bottom], [left, right]])], constant mode, zeros. *)
Definition np_pad (a : grid) (top bottom left right : nat) : grid :=
  let blank := replicate (left + width a + right) 0 in
  replicate top blank
  ++ ((λ r, replicate left 0 ++ r ++ replicate right 0) <$> a)
  ++ replicate bottom blank.

(** [np.zeros((h, w, 3))] *)
Definition np_zeros (h w : nat) : image := replicate h (replicate w (0, 0, 0)).

(** A Python index into an axis of length [n]: negative indices count from
    the end, anything outside [-n, n) raises [IndexError]. *)
Definition py_index (n : nat) (i : Z) : result nat :=
  if (0 <=? i) && (i <? Z.of_nat n) then Ok (Z.to_nat i)
  else if (- Z.of_nat n <=? i) && (i <? 0) then Ok (Z.to_nat (Z.of_nat n + i))
  else Raise IndexError.

(** [table[i]] *)
Definition getitem {A} (table : list A) (i : Z) : result A :=
  k ← py_index (length table) i;
  match table !! k with
  | Some v => Ok v
  | None => Raise IndexError
  end.

(** [table[a]] for an integer array [a]: the array of the [table[a[y, x]]]. *)
Definition take_table {A} (table : list A) (a : grid) : result (list (list A)) :=
  rmapM (rmapM (getitem table)) a.

(** [a[y, x]] for the non-negative [y] and [x] of a [range]. *)
Definition getitem2 {A} (a : list (list A)) (y x : nat) : result A :=
  match a !! y with
  | Some r =>
      match r !! x with
      | Some v => Ok v
      | None => Raise IndexError
      end
  | None => Raise IndexError
  end.

(** [a[i, j] = v] *)
Definition setitem2 {A} (a : list (list A)) (i j : Z) (v : A)
  : result (list (list A)) :=
  r ← py_index (length a) i;
  c ← py_index (width a) j;
  mret (alter (λ row, <[c := v]> row) r a).

(** [np.hstack] of arrays of three axes joins them along axis 1, and needs
    them to agree on axis 0; [np.vstack] joins along axis 0 and needs them to
    agree on axis 1.  Both raise [ValueError] otherwise, and on no arrays. *)
Definition hstack (tiles : list image) : result image :=
  match tiles with
  | [] => Raise ValueError
  | t :: ts =>
      if forallb (λ u, Nat.eqb (length u) (length t)) ts
      then Ok (foldr (zip_with app) (replicate (length t) []) tiles)
      else Raise ValueError
  end.

Definition vstack (rows : list image) : result image :=
  match rows with
  | [] => Raise ValueError
  | r :: rs =>
      if forallb (λ u, Nat.eqb (width u) (width r)) rs
      then Ok (concat rows)
      else Raise ValueError
  end.

(** The pixel of an image at row [r], column [c]. *)
Definition pixel (img : image) (r c : nat) : option rgb :=
  row ← img !! r; row !! c.

(** ** The observation *)

(** The observation mapping: a key that is absent is [None].  [tty_cursor]
    holds [(obs['tty_cursor'][0], obs['tty_cursor'][1])]. *)
Record observation : Type := {
  tty_chars : option grid;
  tty_colors : option grid;
  specials : option grid;
  tty_background : option grid;
  tty_cursor : option (Z * Z)
}.

(** [obs[k]] *)
Definition obs_get {A} (field : option A) : result A :=
  match field with
  | Some v => Ok v
  | None => Raise KeyError
  end.

(** ** The renderer *)

(** The text backend: [array3d(font.render(c, True, color, background))]
    with its axes swapped, rows of pixels. *)
Definition font : Type := Z → rgb → rgb → image.

Record ImageRenderer : Type := {
  _font : font;
  _colors_map : list rgb;
  _bgcolors : gmap string rgb;
  _specials_map : list rgb
}.

(** [d[k]] *)
Definition dict_get {V} (d : gmap string V) (k : string) : result V :=
  match d !! k with
  | Some v => Ok v
  | None => Raise KeyError
  end.

(** [{k: f(v) for k, v in items}] *)
Fixpoint dict_comprehension {V W} (f : V → result W) (items : list (string * V))
  (acc : gmap string W) : result (gmap string W) :=
  match items with
  | [] => Ok acc
  | (k, v) :: items' =>
      w ← f v;
      dict_comprehension f items' (<[k := w]> acc)
  end.

(** [range(n)] *)
Definition range (n : nat) : list Z := Z.of_nat <$> seq 0 n.

Definition init (host : byteorder) (nh : glyph_flags) (sysfont : font)
  : result ImageRenderer :=
  colors_map ← rmapM (hex_string_to_color_tuple host) FOREGROUND_COLORS;
  bgcolors ← dict_comprehension (hex_string_to_color_tuple host)
                                BACKGROUND_COLORS ∅;
  specials_map ←
    rmapM (λ s, dict_get bgcolors (get_special_background nh s)) (range 256);
  mret {| _font := sysfont; _colors_map := colors_map;
          _bgcolors := bgcolors; _specials_map := specials_map |}.

(** ** The tile cache *)

(** A cache key [(c, tuple(color), tuple(background))]. *)
Abbreviation tile_key := (Z * rgb * rgb)%type (only parsing).

(** The module-level state: [TILE_CACHE], and the list of the keys the text
    backend was invoked on, oldest first (kept to speak of cache hits). *)
Record store : Type := {
  TILE_CACHE : gmap tile_key image;
  backend_calls : list tile_key
}.

Definition empty_store : store := {| TILE_CACHE := ∅; backend_calls := [] |}.

(** A computation on the store that returns a value or raises; the store it
    leaves is kept in both cases. *)
Definition M (A : Type) : Type := store → result A * store.

#[global] Instance M_ret : MRet M := λ A a st, (Ok a, st).
#[global] Instance M_bind : MBind M := λ A B k m st,
  match m st with
  | (Ok a, st') => k a st'
  | (Raise e, st') => (Raise e, st')
  end.

Definition lift {A} (r : result A) : M A := λ st, (r, st).

Fixpoint smapM {A B} (f : A → M B) (l : list A) : M (list B) :=
  match l with
  | [] => mret []
  | x :: l' => y ← f x; ys ← smapM f l'; mret (y :: ys)
  end.

(** [key in TILE_CACHE], [TILE_CACHE[key] = v] and [TILE_CACHE[key]]. *)
Definition cache_mem (key : tile_key) : M bool :=
  λ st, (Ok (bool_decide (is_Some (TILE_CACHE st !! key))), st).

Definition cache_set (key : tile_key) (v : image) : M unit :=
  λ st, (Ok (), {| TILE_CACHE := <[key := v]> (TILE_CACHE st);
                   backend_calls := backend_calls st |}).

Definition cache_get (key : tile_key) : M image :=
  λ st, (match TILE_CACHE st !! key with
         | Some v => Ok v
         | None => Raise KeyError
         end, st).

(** The call of the text backend. *)
Definition font_render (f : font) (c : Z) (color background : rgb) : M image :=
  λ st, (Ok (f c color background),
         {| TILE_CACHE := TILE_CACHE st;
            backend_calls := backend_calls st ++ [(c, color, background)] |}).

(** [a[:16, :8]] *)
Definition crop_16_8 (a : image) : image := take 8 <$> take 16 a.

Definition _render_char (self : ImageRenderer) (c : Z) (color background : rgb)
  : M image :=
  let key := (c, color, background) in
  hit ← cache_mem key;
  _ ← (if negb hit then
         single_character ← font_render (_font self) c color background;
         let single_character_fixed_size := crop_16_8 single_character in
         cache_set key single_character_fixed_size
       else mret ());
  cache_get key.

(** ** [render] *)

(** The foreground colours: lines 157-158. *)
Definition foreground_of (self : ImageRenderer) (obs : observation)
  (foreground_colors : option image) : result image :=
  match foreground_colors with
  | Some a => Ok a
  | None =>
      colors ← obs_get (tty_colors obs);
      take_table (_colors_map self) (np_clip colors 0 15)
  end.

(** The background colours: lines 160-175. *)
Definition background_of (self : ImageRenderer) (obs : observation)
  (background_colors : option image) : result image :=
  match background_colors with
  | Some a => Ok a
  | None =>
      derived ←
        match specials obs with
        | Some sp =>
            let padded_specials := np_pad sp 1 2 0 1 in
            let padded_specials := np_clip padded_specials 0 255 in
            take_table (_specials_map self) padded_specials
        | None =>
            match tty_background obs with
            | Some tb => take_table (_colors_map self) (np_clip tb 0 15)
            | None => Ok (np_zeros 24 80)
            end
        end;
      match tty_cursor obs with
      | Some cur =>
          cursor ← dict_get (_bgcolors self) "cursor";
          setitem2 derived (snd cur) (fst cur) cursor
      | None => Ok derived
      end
  end.

Definition _render_pos (self : ImageRenderer) (chars : grid)
  (foreground_colors background_colors : image) (x y : nat) : M image :=
  c ← lift (v ← getitem2 chars y x; chr (represent_char v));
  color ← lift (getitem2 foreground_colors y x);
  background ← lift (getitem2 background_colors y x);
  _render_char self c color background.

(** The composition of the 24 x 80 tiles: lines 185-186. *)
Definition compose_tiles (self : ImageRenderer) (chars : grid)
  (foreground_colors background_colors : image) : M image :=
  rows ← smapM (λ y,
            tiles ← smapM (λ x, _render_pos self chars foreground_colors
                                           background_colors x y)
                         (seq 0 80);
            lift (hstack tiles))
          (seq 0 24);
  lift (vstack rows).

Definition render (self : ImageRenderer) (obs : observation)
  (foreground_colors background_colors : option image) : M image :=
  fg ← lift (foreground_of self obs foreground_colors);
  bg ← lift (background_of self obs background_colors);
  chars ← lift (a ← obs_get (tty_chars obs); mret (np_clip a 0 255));
  compose_tiles self chars fg bg.

(** The stores that calls of [render] accumulate, from the empty cache of a
    fresh process. *)
Inductive accumulated (self : ImageRenderer) : store → Prop :=
  | acc_empty : accumulated self empty_store
  | acc_render st obs fgo bgo :
      accumulated self st →
      accumulated self (snd (render self obs fgo bgo st)).

(** * The vocabulary of the properties *)

(** The flags in the order in which [get_special_background] tests them. *)
Definition priority (nh : glyph_flags) : list (Z * string) :=
  [ (MG_CORPSE nh, "corpse"); (MG_INVIS nh, "invis");
    (MG_DETECT nh, "detect"); (MG_PET nh, "pet"); (MG_RIDDEN nh, "ridden");
    (MG_STATUE nh, "statue"); (MG_OBJPILE nh, "objpile");
    (MG_BW_LAVA nh, "bwlava") ]%string.

(** [earliest s flags name]: [name] is the situation of the earliest flag of
    [flags] whose mask has a bit in common with [s]; ["default"] if there is
    none. *)
Inductive earliest (s : Z) : list (Z * string) → string → Prop :=
  | earliest_none : earliest s [] "default"
  | earliest_here mask name flags :
      Z.land s mask ≠ 0 → earliest s ((mask, name) :: flags) name
  | earliest_later mask name flags r :
      Z.land s mask = 0 → earliest s flags r →
      earliest s ((mask, name) :: flags) r.

(** What [__init__] builds. *)
Definition palette (host : byteorder) : list rgb :=
  match rmapM (hex_string_to_color_tuple host) FOREGROUND_COLORS with
  | Ok l => l
  | Raise _ => []
  end.

Definition bgcolors_of (host : byteorder) : gmap string rgb :=
  match dict_comprehension (hex_string_to_color_tuple host)
          BACKGROUND_COLORS ∅ with
  | Ok d => d
  | Raise _ => ∅
  end.

Definition specials_table (host : byteorder) (nh : glyph_flags) : list rgb :=
  (λ s, default (0, 0, 0) (bgcolors_of host !! get_special_background nh s))
    <$> range 256.

(** The tile of a key: what the backend draws for it, cropped. *)
Definition tile_of (self : ImageRenderer) (key : tile_key) : image :=
  let '(c, color, background) := key in
  crop_16_8 (_font self c color background).

(** Every cached tile is the tile of its key, and the cached keys are the
    keys the backend was invoked on. *)
Definition cache_sound (self : ImageRenderer) (st : store) : Prop :=
  (∀ key v, TILE_CACHE st !! key = Some v → v = tile_of self key)
  ∧ (∀ key, key ∈ backend_calls st ↔ is_Some (TILE_CACHE st !! key)).

(** The store after a tile was asked for: as it was on a hit; with the tile
    cached and the backend invoked on a miss. *)
Definition draw_tile (self : ImageRenderer) (st : store) (key : tile_key)
  : store :=
  match TILE_CACHE st !! key with
  | Some _ => st
  | None => {| TILE_CACHE := <[key := tile_of self key]> (TILE_CACHE st);
               backend_calls := backend_calls st ++ [key] |}
  end.

(** The same on the list of the backend calls alone. *)
Definition draw_call (calls : list tile_key) (key : tile_key)
  : list tile_key :=
  if decide (key ∈ calls) then calls else calls ++ [key].

(** [a[y, x]], or [d] outside the array. *)
Definition cell {A} (d : A) (a : list (list A)) (y x : nat) : A :=
  default d (row ← a !! y; row !! x).

(** The cache keys of the 24 x 80 cells, row after row, and in a row column
    after column. *)
Definition cell_key (chars : grid) (fg bg : image) (y x : nat) : tile_key :=
  (represent_char (clip 0 255 (cell 0 chars y x)),
   cell (0, 0, 0) fg y x, cell (0, 0, 0) bg y x).

Definition cell_keys (chars : grid) (fg bg : image) : list tile_key :=
  concat ((λ y, cell_key chars fg bg y <$> seq 0 80) <$> seq 0 24).

(** From every sound store, [m] returns a value that satisfies [Q] and
    leaves the store in which the tiles of [keys] were asked for in turn. *)
Definition draws {A} (self : ImageRenderer) (keys : list tile_key) (m : M A)
  (Q : A → Prop) : Prop :=
  ∀ st, cache_sound self st →
        ∃ a, m st = (Ok a, foldl (draw_tile self) st keys) ∧ Q a.

(** [m] returns [r] from every store that satisfies [I], and keeps [I]. *)
Definition computes {A} (I : store → Prop) (m : M A) (r : result A) : Prop :=
  ∀ st, I st → fst (m st) = r ∧ I (snd (m st)).

(** [render] without a cache: every tile is drawn anew. *)
Definition tile_at (self : ImageRenderer) (chars : grid)
  (foreground_colors background_colors : image) (x y : nat) : result image :=
  c ← (v ← getitem2 chars y x; chr (represent_char v));
  color ← getitem2 foreground_colors y x;
  background ← getitem2 background_colors y x;
  mret (tile_of self (c, color, background)).

Definition row_uncached (self : ImageRenderer) (chars : grid)
  (foreground_colors background_colors : image) (y : nat) : result image :=
  tiles ← rmapM (λ x, tile_at self chars foreground_colors
                              background_colors x y)
                (seq 0 80);
  hstack tiles.

Definition compose_uncached (self : ImageRenderer) (chars : grid)
  (foreground_colors background_colors : image) : result image :=
  rows ← rmapM (row_uncached self chars foreground_colors background_colors)
               (seq 0 24);
  vstack rows.

Definition render_uncached (self : ImageRenderer) (obs : observation)
  (foreground_colors background_colors : option image) : result image :=
  fg ← foreground_of self obs foreground_colors;
  bg ← background_of self obs background_colors;
  chars ← (a ← obs_get (tty_chars obs); mret (np_clip a 0 255));
  compose_uncached self chars fg bg.

(** An array of [h] rows and [w] columns; of at least that many. *)
Definition has_shape {A} (h w : nat) (a : list (list A)) : Prop :=
  length a = h ∧ Forall (λ r, length r = w) a.

Definition at_least {A} (h w : nat) (a : list (list A)) : Prop :=
  (h ≤ length a)%nat ∧ Forall (λ r, (w ≤ length r)%nat) a.

(** [table[clip(v, 0, hi)]] *)
Definition lookup_clipped (table : list rgb) (hi v : Z) : rgb :=
  default (0, 0, 0) (table !! Z.to_nat (clip 0 hi v)).

(** The colours derived from the observation, before the cursor is drawn. *)
Definition derived_background (self : ImageRenderer) (obs : observation)
  : result image :=
  match specials obs with
  | Some sp =>
      take_table (_specials_map self) (np_clip (np_pad sp 1 2 0 1) 0 255)
  | None =>
      match tty_background obs with
      | Some tb => take_table (_colors_map self) (np_clip tb 0 15)
      | None => Ok (np_zeros 24 80)
      end
  end.

(** The declared shape of the sources of the background, and a cursor inside
    the terminal. *)
Definition background_sources_ok (obs : observation) : Prop :=
  match specials obs with
  | Some sp => has_shape 21 79 sp
  | None =>
      match tty_background obs with
      | Some tb => has_shape 24 80 tb
      | None => True
      end
  end.

Definition cursor_ok (obs : observation) : Prop :=
  match tty_cursor obs with
  | Some (x, y) => 0 ≤ x < 80 ∧ 0 ≤ y < 24
  | None => True
  end.

(** A text backend that draws 18 x 9 patches in the two colours. *)
Definition block_font : font := λ c color background,
  (λ i, (λ j, if Z.even (c + i + j) then color else background) <$> range 9)
    <$> range 18.

Definition demo_renderer : ImageRenderer :=
  {| _font := block_font; _colors_map := palette little;
     _bgcolors := bgcolors_of little;
     _specials_map := specials_table little nethack |}.

Definition constant_grid (h w : nat) (v : Z) : grid := replicate h (replicate w v).

(** A frame of blank cells without a source for the background. *)
Definition plain_frame (cursor : option (Z * Z)) : observation :=
  {| tty_chars := Some (constant_grid 24 80 0);
     tty_colors := Some (constant_grid 24 80 0);
     specials := None; tty_background := None; tty_cursor := cursor |}.

(** A frame with 21 x 79 specials (every cell a pet on an object pile). *)
Definition specials_frame (cursor : option (Z * Z)) : observation :=
  {| tty_chars := Some (constant_grid 24 80 65);
     tty_colors := Some (constant_grid 24 80 7);
     specials := Some (constant_grid 21 79 0x48);
     tty_background := None; tty_cursor := cursor |}.

(** A frame as the data model declares it: 24 x 80 characters; 24 x 80
    colour indices, or a 24 x 80 override; for the background a 24 x 80
    override, or 21 x 79 specials or a 24 x 80 [tty_background] or neither,
    and a cursor inside the terminal or none. *)
Definition frame_ok (obs : observation) (fgo bgo : option image) : Prop :=
  (∃ chars, tty_chars obs = Some chars ∧ has_shape 24 80 chars)
  ∧ match fgo with
    | Some f => has_shape 24 80 f
    | None => ∃ colors, tty_colors obs = Some colors ∧ has_shape 24 80 colors
    end
  ∧ match bgo with
    | Some b => has_shape 24 80 b
    | None => background_sources_ok obs ∧ cursor_ok obs
    end.

(** [a[:24, :80]] *)
Definition crop_24_80 (a : grid) : grid := take 80 <$> take 24 a.

(** The observation with its character and colour grids cut to 24 x 80. *)
Definition truncate_frame (obs : observation) : observation :=
  {| tty_chars := crop_24_80 <$> tty_chars obs;
     tty_colors := crop_24_80 <$> tty_colors obs;
     specials := specials obs;
     tty_background := tty_background obs;
     tty_cursor := tty_cursor obs |}.

(** A rectangular array of at least [h0] rows and [w0] columns. *)
Definition covers {A} (h0 w0 : nat) (a : list (list A)) : Prop :=
  ∃ h w, has_shape h w a ∧ (h0 ≤ h)%nat ∧ (w0 ≤ w)%nat.

(** A frame whose grids are as large as the declared shapes, or larger. *)
Definition sources_cover (obs : observation) : Prop :=
  match specials obs with
  | Some sp => covers 21 79 sp
  | None =>
      match tty_background obs with
      | Some tb => covers 24 80 tb
      | None => True
      end
  end.

Definition frame_covers (obs : observation) (fgo bgo : option image) : Prop :=
  (∃ chars, tty_chars obs = Some chars ∧ covers 24 80 chars)
  ∧ match fgo with
    | Some f => covers 24 80 f
    | None => ∃ colors, tty_colors obs = Some colors ∧ covers 24 80 colors
    end
  ∧ match bgo with
    | Some b => covers 24 80 b
    | None => sources_cover obs ∧ cursor_ok obs
    end.

(** A frame with a 25 x 81 grid of characters and a 30 x 80 grid of colour
    indices, and one whose characters have 79 columns only. *)
Definition oversized_frame : observation :=
  {| tty_chars := Some (constant_grid 25 81 65);
     tty_colors := Some (constant_grid 30 80 7);
     specials := None; tty_background := None; tty_cursor := None |}.

Definition narrow_frame : observation :=
  {| tty_chars := Some (constant_grid 24 79 65);
     tty_colors := Some (constant_grid 24 80 7);
     specials := None; tty_background := None; tty_cursor := None |}.

(** ** More vocabulary: strings that [int(s, 16)] rejects *)

(** A printable ASCII character that makes [int(s, 16)] raise wherever it
    stands in [s]: not a hexadecimal digit, not a sign, not an underscore,
    not the [x] of a prefix. *)
Definition rejected_char (c : ascii) : Prop :=
  hex_digit c = None ∧ 33 ≤ ord c ≤ 126
  ∧ c ≠ "+"%char ∧ c ≠ "-"%char ∧ c ≠ "_"%char ∧ c ≠ "x"%char ∧ c ≠ "X"%char.

(** ** More vocabulary: frames *)

(** The names of [BACKGROUND_COLORS]. *)
Definition situations : list string := fst <$> BACKGROUND_COLORS.

(** The observation with every value brought into its range: characters
    clipped to 0..255 and represented, colour indices clipped to 0..15,
    specials clipped to 0..255. *)
Definition normal_frame (obs : observation) : observation :=
  {| tty_chars :=
       (λ a : grid, (λ row : list Z,
                       (λ v, represent_char (clip 0 255 v)) <$> row) <$> a)
       <$> tty_chars obs;
     tty_colors := (λ a, np_clip a 0 15) <$> tty_colors obs;
     specials := (λ a, np_clip a 0 255) <$> specials obs;
     tty_background := (λ a, np_clip a 0 15) <$> tty_background obs;
     tty_cursor := tty_cursor obs |}.

(** A frame whose background is a grid of colour indices: cell [(r, c)] has
    the index [r + c - 3]. *)
Definition indexed_frame (cursor : option (Z * Z)) : observation :=
  {| tty_chars := Some (constant_grid 24 80 65);
     tty_colors := Some (constant_grid 24 80 20);
     specials := None;
     tty_background :=
       Some ((λ r, (λ c, r + c - 3) <$> range 80) <$> range 24);
     tty_cursor := cursor |}.

(** ** More vocabulary: the cache *)

(** The keys that [render] asks for: a character 1..255 that is not the
    backtick. *)
Definition key_ok (key : tile_key) : Prop :=
  1 ≤ key.1.1 ≤ 255 ∧ key.1.1 ≠ ord "`".

(** Whatever the store and the outcome, [m] changes the store only by asking
    for at most [n] tiles, of keys that satisfy [P]. *)
Definition only_draws {A} (self : ImageRenderer) (P : tile_key → Prop)
  (n : nat) (m : M A) : Prop :=
  ∀ st, ∃ keys, (length keys ≤ n)%nat ∧ Forall P keys
                ∧ snd (m st) = foldl (draw_tile self) st keys.

(** A grid of codes 0..255. *)
Definition bytes_grid (a : grid) : Prop :=
  Forall (Forall (λ v, 0 ≤ v ≤ 255)) a.

(** A store whose cache holds, for the key of a capital A in black on black,
    an empty bitmap that no backend has drawn. *)
Definition stale_store : store :=
  {| TILE_CACHE := {[ (65, (0, 0, 0), (0, 0, 0)) := [] ]};
     backend_calls := [] |}.

(** A text backend that draws patches of 12 rows and 7 columns. *)
Definition small_font : font := λ c color background,
  (λ i, (λ j, if Z.even (c + i + j) then color else background) <$> range 7)
    <$> range 12.

(** A text backend whose patches have 12 rows for the letters from [a] on and
    16 rows for the other characters. *)
Definition ragged_font : font := λ c color background,
  replicate (if 97 <=? c then 12 else 16) (replicate 8 color).

Definition small_renderer : ImageRenderer :=
  {| _font := small_font; _colors_map := palette little;
     _bgcolors := bgcolors_of little;
     _specials_map := specials_table little nethack |}.

Definition ragged_renderer : ImageRenderer :=
  {| _font := ragged_font; _colors_map := palette little;
     _bgcolors := bgcolors_of little;
     _specials_map := specials_table little nethack |}.

(** A frame whose rows are a capital A followed by the letter a. *)
Definition letters_frame : observation :=
  {| tty_chars := Some (replicate 24 (65 :: replicate 79 97));
     tty_colors := Some (constant_grid 24 80 7);
     specials := None; tty_background := None; tty_cursor := None |}.


(** * Properties *)

(** ** Results *)

Lemma rmapM_ok {A B} (f : A → result B) (g : A → B) (l : list A) :
  (∀ x, x ∈ l → f x = Ok (g x)) → rmapM f l = Ok (g <$> l).
Proof.
  induction l as [|x l IH]; intros Hf; simpl; [done|].
  rewrite (Hf x) by left.
  rewrite IH; [done|].
  intros y Hy. apply Hf. by right.
Qed.

Lemma rmapM_length {A B} (f : A → result B) (l : list A) (l' : list B) :
  rmapM f l = Ok l' → length l' = length l.
Proof.
  revert l'. induction l as [|x l IH]; intros l'; simpl.
  - by intros [= <-].
  - destruct (f x); [|done].
    destruct (rmapM f l) as [ys|]; [|done].
    intros [= <-]. simpl. by rewrite (IH ys).
Qed.

Lemma rmapM_lookup {A B} (f : A → result B) (l : list A) (l' : list B) i x :
  rmapM f l = Ok l' → l !! i = Some x → ∃ y, f x = Ok y ∧ l' !! i = Some y.
Proof.
  revert l' i. induction l as [|a l IH]; intros l' i; simpl; [done|].
  destruct (f a) as [b|] eqn:Hfa; [|done].
  destruct (rmapM f l) as [ys|]; [|done].
  intros [= <-]. destruct i as [|i]; simpl.
  - intros [= ->]. eauto.
  - intros Hi. by apply IH.
Qed.

(** ** [hex_string_to_color_tuple] *)

Lemma hex_digit_range c v : hex_digit c = Some v → 0 ≤ v ≤ 15.
Proof.
  unfold hex_digit.
  repeat case_match; intros [= <-]; lia.
Qed.

Lemma byte_of_spec n i : 0 ≤ i → byte_of n i = (n / 2 ^ (8 * i)) mod 256.
Proof.
  intros Hi. unfold byte_of.
  rewrite Z.shiftr_div_pow2 by lia.
  change 255 with (Z.ones 8). by rewrite Z.land_ones by lia.
Qed.

(** The three bytes of [0xRRGGBB], whatever lies above them. *)
Lemma bytes_of_rrggbb a r g b :
  0 ≤ a → 0 ≤ r < 256 → 0 ≤ g < 256 → 0 ≤ b < 256 →
  let n := ((a * 256 + r) * 256 + g) * 256 + b in
  byte_of n 2 = r ∧ byte_of n 1 = g ∧ byte_of n 0 = b.
Proof.
  intros Ha Hr Hg Hb n. subst n.
  rewrite !byte_of_spec by lia.
  change (2 ^ (8 * 2)) with 65536. change (2 ^ (8 * 1)) with 256.
  change (2 ^ (8 * 0)) with 1.
  repeat split.
  - replace (((a * 256 + r) * 256 + g) * 256 + b)
      with ((a * 256 + r) * 65536 + (g * 256 + b)) by lia.
    rewrite Z.div_add_l by lia.
    rewrite (Z.div_small (g * 256 + b)) by lia.
    rewrite Z.add_0_r, Z.add_comm, Z.mod_add by lia.
    by apply Z.mod_small.
  - rewrite Z.div_add_l by lia.
    rewrite (Z.div_small b) by lia.
    rewrite Z.add_0_r, Z.add_comm, Z.mod_add by lia.
    by apply Z.mod_small.
  - rewrite Z.div_1_r, Z.add_comm, Z.mod_add by lia.
    by apply Z.mod_small.
Qed.

(** On a little-endian host [hex_string_to_color_tuple] turns ["#RRGGBB"]
    into the bytes [(R, G, B)], in this order: for all hexadecimal digits,
    the result is [(16 r1 + r2, 16 g1 + g2, 16 b1 + b2)].  The fourth byte
    that [struct.unpack] decodes is dropped: two more leading digits
    (["#AARRGGBB"]) do not change the result.  In particular ["#000000"],
    ["#ff00ff"] and ["#aa7700"] give [(0,0,0)], [(255,0,255)] and
    [(170,119,0)]. *)
Theorem hex_string_to_color_tuple_rgb (r1 r2 g1 g2 b1 b2 : ascii)
    (vr1 vr2 vg1 vg2 vb1 vb2 : Z) :
  hex_digit r1 = Some vr1 → hex_digit r2 = Some vr2 →
  hex_digit g1 = Some vg1 → hex_digit g2 = Some vg2 →
  hex_digit b1 = Some vb1 → hex_digit b2 = Some vb2 →
  let rrggbb :=
    String r1 (String r2 (String g1 (String g2 (String b1 (String b2 ""))))) in
  let triple := (16 * vr1 + vr2, 16 * vg1 + vg2, 16 * vb1 + vb2) in
  hex_string_to_color_tuple little (String "#" rrggbb) = Ok triple
  ∧ (∀ a1 a2 va1 va2,
       hex_digit a1 = Some va1 → hex_digit a2 = Some va2 →
       hex_string_to_color_tuple little
         (String "#" (String a1 (String a2 rrggbb))) = Ok triple)
  ∧ hex_string_to_color_tuple little "#000000" = Ok (0, 0, 0)
  ∧ hex_string_to_color_tuple little "#ff00ff" = Ok (255, 0, 255)
  ∧ hex_string_to_color_tuple little "#aa7700" = Ok (170, 119, 0).
Proof.
  intros Hr1 Hr2 Hg1 Hg2 Hb1 Hb2 rrggbb triple.
  pose proof (hex_digit_range _ _ Hr1). pose proof (hex_digit_range _ _ Hr2).
  pose proof (hex_digit_range _ _ Hg1). pose proof (hex_digit_range _ _ Hg2).
  pose proof (hex_digit_range _ _ Hb1). pose proof (hex_digit_range _ _ Hb2).
  assert (Hgen : ∀ a, 0 ≤ a < 256 →
    (r ← pack_I little
           (((a * 256 + (16 * vr1 + vr2)) * 256 + (16 * vg1 + vg2)) * 256
            + (16 * vb1 + vb2));
     '(blue, green, red, _) ← unpack_4B r;
     mret (red, green, blue)) = Ok triple).
  { intros a Ha. unfold pack_I.
    destruct (bytes_of_rrggbb a (16 * vr1 + vr2) (16 * vg1 + vg2)
                (16 * vb1 + vb2)) as (E2 & E1 & E0); try lia.
    cbv zeta in E2, E1, E0.
    case_match eqn:Hrange.
    - cbn. by rewrite E2, E1, E0.
    - exfalso. apply andb_false_iff in Hrange as [Hc|Hc];
        [apply Z.leb_gt in Hc | apply Z.ltb_ge in Hc]; lia. }
  split; [|split; [|by vm_compute]].
  - unfold hex_string_to_color_tuple, rrggbb. cbn [str_tail int16 int16_digits].
    rewrite Hr1, Hr2, Hg1, Hg2, Hb1, Hb2.
    cbn [mbind result_bind rbind].
    rewrite <- (Hgen 0) by lia. do 2 f_equal. lia.
  - intros a1 a2 va1 va2 Ha1 Ha2.
    pose proof (hex_digit_range _ _ Ha1). pose proof (hex_digit_range _ _ Ha2).
    unfold hex_string_to_color_tuple, rrggbb. cbn [str_tail int16 int16_digits].
    rewrite Ha1, Ha2, Hr1, Hr2, Hg1, Hg2, Hb1, Hb2.
    cbn [mbind result_bind rbind].
    rewrite <- (Hgen (16 * va1 + va2)) by lia. do 2 f_equal. lia.
Qed.

Lemma hex_string_to_color_tuple_rgb_witness :
  hex_string_to_color_tuple little "#3c7d0a" = Ok (60, 125, 10)
  ∧ hex_string_to_color_tuple little "#ff3c7d0a" = Ok (60, 125, 10).
Proof.
  destruct (hex_string_to_color_tuple_rgb "3" "c" "7" "d" "0" "a"
              3 12 7 13 0 10) as (H1 & H2 & _); try reflexivity.
  split; [exact H1|].
  apply (H2 "f" "f" 15 15)%char; reflexivity.
Defined.

(** On a big-endian host the same code reads the bytes in the other order. *)
Remark hex_string_to_color_tuple_big_endian :
  hex_string_to_color_tuple big "#aa7700" = Ok (119, 170, 0).
Proof. reflexivity. Qed.

Lemma byte_of_top r g b :
  0 ≤ r < 256 → 0 ≤ g < 256 → 0 ≤ b < 256 →
  byte_of ((r * 256 + g) * 256 + b) 3 = 0.
Proof.
  intros Hr Hg Hb. rewrite byte_of_spec by lia.
  change (2 ^ (8 * 3)) with 16777216.
  rewrite Z.div_small by lia. done.
Qed.

(** C7 (a defect of the code): the docstring promises the RGB tuple of the
    string, but ['I'] is the native unsigned int of [struct], so the order in
    which the four bytes are unpacked follows the host.  For all hexadecimal
    digits, ["#RRGGBB"] gives [(R, G, B)], as the claim says, on a
    little-endian host, and [(G, R, 0)] on a big-endian host: there
    ["#aa7700"] gives [(119, 170, 0)] and ["#ff00ff"] gives [(0, 255, 0)]. *)
Theorem hex_string_to_color_tuple_host_order (r1 r2 g1 g2 b1 b2 : ascii)
    (vr1 vr2 vg1 vg2 vb1 vb2 : Z) :
  hex_digit r1 = Some vr1 → hex_digit r2 = Some vr2 →
  hex_digit g1 = Some vg1 → hex_digit g2 = Some vg2 →
  hex_digit b1 = Some vb1 → hex_digit b2 = Some vb2 →
  let rrggbb :=
    String r1 (String r2 (String g1 (String g2 (String b1 (String b2 ""))))) in
  hex_string_to_color_tuple little (String "#" rrggbb)
  = Ok (16 * vr1 + vr2, 16 * vg1 + vg2, 16 * vb1 + vb2)
  ∧ hex_string_to_color_tuple big (String "#" rrggbb)
    = Ok (16 * vg1 + vg2, 16 * vr1 + vr2, 0)
  ∧ hex_string_to_color_tuple big "#aa7700" = Ok (119, 170, 0)
  ∧ hex_string_to_color_tuple big "#ff00ff" = Ok (0, 255, 0).
Proof.
  intros Hr1 Hr2 Hg1 Hg2 Hb1 Hb2 rrggbb.
  split; [by apply hex_string_to_color_tuple_rgb|].
  split; [|by vm_compute].
  pose proof (hex_digit_range _ _ Hr1). pose proof (hex_digit_range _ _ Hr2).
  pose proof (hex_digit_range _ _ Hg1). pose proof (hex_digit_range _ _ Hg2).
  pose proof (hex_digit_range _ _ Hb1). pose proof (hex_digit_range _ _ Hb2).
  unfold hex_string_to_color_tuple, rrggbb. cbn [str_tail int16 int16_digits].
  rewrite Hr1, Hr2, Hg1, Hg2, Hb1, Hb2.
  cbn [mbind result_bind rbind].
  replace (16 * (16 * (16 * (16 * (16 * (16 * 0 + vr1) + vr2) + vg1) + vg2)
                 + vb1) + vb2)
    with (((0 * 256 + (16 * vr1 + vr2)) * 256 + (16 * vg1 + vg2)) * 256
          + (16 * vb1 + vb2)) by lia.
  destruct (bytes_of_rrggbb 0 (16 * vr1 + vr2) (16 * vg1 + vg2)
              (16 * vb1 + vb2)) as (E2 & E1 & E0); try lia.
  cbv zeta in E2, E1, E0.
  pose proof (byte_of_top (16 * vr1 + vr2) (16 * vg1 + vg2) (16 * vb1 + vb2))
    as E3.
  rewrite Z.mul_0_l, Z.add_0_l in E2, E1, E0 |- *.
  unfold pack_I.
  case_match eqn:Hrange.
  - cbn. rewrite E2, E1, E3 by lia. done.
  - exfalso. apply andb_false_iff in Hrange as [Hc|Hc];
      [apply Z.leb_gt in Hc | apply Z.ltb_ge in Hc]; lia.
Qed.

Lemma hex_string_to_color_tuple_host_order_witness :
  hex_string_to_color_tuple little "#3c7d0a" = Ok (60, 125, 10)
  ∧ hex_string_to_color_tuple big "#3c7d0a" = Ok (125, 60, 0).
Proof.
  destruct (hex_string_to_color_tuple_host_order "3" "c" "7" "d" "0" "a"
              3 12 7 13 0 10) as (H1 & H2 & _); try reflexivity.
  split; [exact H1 | exact H2].
Defined.

(** ** [represent_char] *)

(** C8: on the codes 0..255, [represent_char] sends 0 to the code of the
    space (32), the code of the backtick (96) to the code of the digit 0 (48),
    and every other code to itself. *)
Theorem represent_char_spec (c : Z) :
  0 ≤ c ≤ 255 →
  (c = 0 → represent_char c = ord " ")
  ∧ (c = ord "`" → represent_char c = ord "0")
  ∧ (c ≠ 0 → c ≠ ord "`" → represent_char c = c)
  ∧ ord " " = 32 ∧ ord "`" = 96 ∧ ord "0" = 48.
Proof.
  intros _. unfold represent_char.
  repeat split; try reflexivity.
  - by intros ->.
  - by intros ->.
  - intros H0 H1.
    destruct (Z.eqb_spec c 0); [done|].
    by destruct (Z.eqb_spec c (ord "`")).
Qed.

Lemma represent_char_spec_witness :
  represent_char 0 = 32 ∧ represent_char 96 = 48 ∧ represent_char 65 = 65.
Proof.
  split; [|split].
  - destruct (represent_char_spec 0) as (H & _); [lia|].
    exact (H eq_refl).
  - destruct (represent_char_spec 96) as (_ & H & _); [lia|].
    exact (H eq_refl).
  - destruct (represent_char_spec 65) as (_ & _ & H & _); [lia|].
    apply H; discriminate.
Defined.

Lemma represent_char_range c : 0 ≤ c ≤ 255 → 1 ≤ represent_char c ≤ 255.
Proof.
  intros Hc. unfold represent_char.
  destruct (Z.eqb_spec c 0); [by vm_compute|].
  destruct (Z.eqb_spec c (ord "`")); [by vm_compute | lia].
Qed.

(** ** [get_special_background] and the table of the 256 bitfields *)

Lemma earliest_unique s flags r1 r2 :
  earliest s flags r1 → earliest s flags r2 → r1 = r2.
Proof.
  induction 1 as [|mask name flags Hm|mask name flags r Hm _ IH];
    inversion 1; subst; try done.
  by apply IH.
Qed.

Lemma get_special_background_earliest nh s :
  earliest s (priority nh) (get_special_background nh s).
Proof.
  unfold get_special_background, priority, py_bool.
  repeat match goal with
  | |- context [Z.land s ?m =? 0] =>
      destruct (Z.eqb_spec (Z.land s m) 0);
      cbn [negb]; [apply earliest_later; [assumption|] | by apply earliest_here]
  end.
  apply earliest_none.
Qed.

Lemma get_special_background_bgcolor host nh s :
  is_Some (bgcolors_of host !! get_special_background nh s).
Proof.
  unfold get_special_background.
  repeat case_match; destruct host; vm_compute; eauto.
Qed.

Lemma init_ok host nh sysfont :
  init host nh sysfont
  = Ok {| _font := sysfont; _colors_map := palette host;
          _bgcolors := bgcolors_of host;
          _specials_map := specials_table host nh |}.
Proof.
  unfold init.
  assert (rmapM (hex_string_to_color_tuple host) FOREGROUND_COLORS
          = Ok (palette host)) as -> by (by destruct host).
  assert (dict_comprehension (hex_string_to_color_tuple host)
            BACKGROUND_COLORS ∅ = Ok (bgcolors_of host)) as ->
    by (by destruct host).
  cbn [mbind result_bind rbind].
  rewrite (rmapM_ok _ (λ s, default (0, 0, 0)
             (bgcolors_of host !! get_special_background nh s)));
    [reflexivity|].
  intros s _. unfold dict_get.
  destruct (get_special_background_bgcolor host nh s) as [col Hcol].
  by rewrite Hcol.
Qed.

(** C1: for every bitfield [s] in 0..255, [get_special_background] returns
    the situation of the earliest flag, in the order corpse, invis, detect,
    pet, ridden, statue, objpile, bwlava, whose mask has a bit in common with
    [s], and ["default"] when there is none; no other name fits that
    description.  The table that [__init__] builds has 256 entries, and its
    entry [s] is the colour of that situation. *)
Theorem special_background_table host nh sysfont self (s : Z) :
  init host nh sysfont = Ok self →
  0 ≤ s ≤ 255 →
  earliest s (priority nh) (get_special_background nh s)
  ∧ (∀ name, earliest s (priority nh) name →
             name = get_special_background nh s)
  ∧ length (_specials_map self) = 256%nat
  ∧ ∃ col, _bgcolors self !! get_special_background nh s = Some col
           ∧ getitem (_specials_map self) s = Ok col.
Proof.
  rewrite init_ok. intros [= <-] Hs. cbn [_specials_map _bgcolors].
  pose proof (get_special_background_earliest nh s) as He.
  split; [exact He|]. split.
  { intros name Hname. exact (earliest_unique _ _ _ _ Hname He). }
  assert (Hlen : length (specials_table host nh) = 256%nat).
  { unfold specials_table, range. by rewrite !length_fmap, length_seq. }
  split; [exact Hlen|].
  destruct (get_special_background_bgcolor host nh s) as [col Hcol].
  exists col. split; [exact Hcol|].
  unfold getitem, py_index. rewrite Hlen.
  destruct (Z.leb_spec 0 s); [|lia].
  destruct (Z.ltb_spec s (Z.of_nat 256)); [|lia].
  cbn [andb mbind result_bind rbind].
  unfold specials_table, range. rewrite !list_lookup_fmap.
  rewrite lookup_seq_lt by lia. cbn [fmap option_fmap option_map].
  rewrite Nat.add_0_l, Z2Nat.id by lia.
  by rewrite Hcol.
Qed.

(** ** The tile cache *)

Lemma bind_run {A B} (m : M A) (k : A → M B) st :
  (m ≫= k) st = match m st with
                | (Ok a, st') => k a st'
                | (Raise e, st') => (Raise e, st')
                end.
Proof. reflexivity. Qed.

Lemma computes_lift {A} I (r : result A) : computes I (lift r) r.
Proof. by intros st HI. Qed.

Lemma computes_bind {A B} I (m : M A) (k : A → M B) r kr :
  computes I m r →
  (∀ a, r = Ok a → computes I (k a) (kr a)) →
  computes I (m ≫= k) (r ≫= kr).
Proof.
  intros Hm Hk st HI. rewrite bind_run.
  destruct (Hm st HI) as [Hr HI'].
  destruct (m st) as [[a|e] st']; simpl in Hr, HI'; subst r.
  - by apply Hk.
  - done.
Qed.

Lemma computes_mapM {A B} I (f : A → M B) (g : A → result B) l :
  (∀ x, computes I (f x) (g x)) → computes I (smapM f l) (rmapM g l).
Proof.
  intros Hf. induction l as [|x l IH]; [by intros st HI|].
  change (smapM f (x :: l)) with (y ← f x; ys ← smapM f l; mret (y :: ys)).
  replace (rmapM g (x :: l))
    with (y ← g x; ys ← rmapM g l; (mret (y :: ys) : result (list B))).
  - apply computes_bind; [apply Hf|]. intros y _.
    apply computes_bind; [apply IH|]. intros ys _.
    by intros st HI.
  - simpl. destruct (g x); [|done]. by destruct (rmapM g l).
Qed.

Lemma _render_char_run self c color background st :
  _render_char self c color background st =
    match TILE_CACHE st !! (c, color, background) with
    | Some v => (Ok v, st)
    | None =>
        let v := crop_16_8 (_font self c color background) in
        (Ok v, {| TILE_CACHE := <[(c, color, background) := v]> (TILE_CACHE st);
                  backend_calls := backend_calls st ++ [(c, color, background)] |})
    end.
Proof.
  unfold _render_char. rewrite bind_run. unfold cache_mem.
  destruct (TILE_CACHE st !! (c, color, background)) as [v|] eqn:Hk.
  - rewrite bool_decide_eq_true_2 by eauto. cbn [negb].
    rewrite bind_run. cbn. unfold cache_get. by rewrite Hk.
  - rewrite bool_decide_eq_false_2 by (by intros [? ?]). cbn [negb].
    rewrite !bind_run. cbn. unfold cache_get. cbn.
    by rewrite lookup_insert_eq.
Qed.

Lemma draw_tile_sound self st key :
  cache_sound self st → cache_sound self (draw_tile self st key).
Proof.
  intros [Htiles Hcalls]. unfold draw_tile.
  destruct (TILE_CACHE st !! key) as [v|] eqn:Hk; [done|].
  split; cbn [TILE_CACHE backend_calls].
  - intros key' v'. rewrite lookup_insert. case_decide as Hkey.
    + intros [= <-]. by subst key'.
    + apply Htiles.
  - intros key'. rewrite elem_of_app, list_elem_of_singleton, lookup_insert.
    case_decide as Hkey.
    + subst key'. split; [by eexists|by right].
    + rewrite Hcalls. split; [by intros [?|?]|by left].
Qed.

Lemma _render_char_draw self c color background st :
  cache_sound self st →
  _render_char self c color background st
  = (Ok (tile_of self (c, color, background)),
     draw_tile self st (c, color, background)).
Proof.
  intros [Htiles _]. rewrite _render_char_run. unfold draw_tile.
  destruct (TILE_CACHE st !! (c, color, background)) as [v|] eqn:Hk; [|done].
  by rewrite (Htiles _ _ Hk).
Qed.

Lemma _render_char_computes self c color background :
  computes (cache_sound self) (_render_char self c color background)
           (Ok (tile_of self (c, color, background))).
Proof.
  intros st Hst.
  rewrite (_render_char_draw self c color background st Hst).
  split; [done|]. by apply draw_tile_sound.
Qed.

Lemma _render_pos_computes self chars fg bg x y :
  computes (cache_sound self) (_render_pos self chars fg bg x y)
           (tile_at self chars fg bg x y).
Proof.
  unfold _render_pos, tile_at.
  apply computes_bind; [apply computes_lift|]. intros c _.
  apply computes_bind; [apply computes_lift|]. intros color _.
  apply computes_bind; [apply computes_lift|]. intros background _.
  apply _render_char_computes.
Qed.

Lemma compose_computes self chars fg bg :
  computes (cache_sound self) (compose_tiles self chars fg bg)
           (compose_uncached self chars fg bg).
Proof.
  unfold compose_tiles, compose_uncached.
  apply computes_bind; [|intros rows _; apply computes_lift].
  apply computes_mapM. intros y. unfold row_uncached.
  apply computes_bind; [|intros tiles _; apply computes_lift].
  apply computes_mapM. intros x. apply _render_pos_computes.
Qed.

Lemma render_run self obs fgo bgo st :
  render self obs fgo bgo st =
    match foreground_of self obs fgo with
    | Raise e => (Raise e, st)
    | Ok fg =>
        match background_of self obs bgo with
        | Raise e => (Raise e, st)
        | Ok bg =>
            match tty_chars obs with
            | None => (Raise KeyError, st)
            | Some a => compose_tiles self (np_clip a 0 255) fg bg st
            end
        end
    end.
Proof.
  unfold render. rewrite bind_run. unfold lift at 1.
  destruct (foreground_of self obs fgo) as [fg|]; [|reflexivity].
  rewrite bind_run. unfold lift at 1.
  destruct (background_of self obs bgo) as [bg|]; [|reflexivity].
  rewrite bind_run. unfold lift at 1.
  destruct (tty_chars obs) as [a|]; reflexivity.
Qed.

Lemma render_computes self obs fgo bgo :
  computes (cache_sound self) (render self obs fgo bgo)
           (render_uncached self obs fgo bgo).
Proof.
  unfold render, render_uncached.
  apply computes_bind; [apply computes_lift|]. intros fg _.
  apply computes_bind; [apply computes_lift|]. intros bg _.
  apply computes_bind; [apply computes_lift|]. intros chars _.
  apply compose_computes.
Qed.

Lemma empty_store_sound self : cache_sound self empty_store.
Proof.
  split.
  - intros key v. unfold empty_store. simpl. by rewrite lookup_empty.
  - intros key. unfold empty_store. simpl. rewrite lookup_empty. split.
    + by intros ? %elem_of_nil.
    + by intros [? ?].
Qed.

Lemma accumulated_sound self st : accumulated self st → cache_sound self st.
Proof.
  induction 1 as [|st obs fgo bgo _ IH]; [apply empty_store_sound|].
  by apply render_computes.
Qed.

(** C6: rasterizing the same (character, foreground, background) twice gives
    the same bitmap both times, and the second call is a cache hit: it leaves
    the cache as it is and does not invoke the text backend.  The value that
    [render] returns (an image or an exception) does not depend on the cache
    that earlier calls of [render] have accumulated: it is the value computed
    from the empty cache, and the value computed without any cache. *)
Theorem render_char_cached_render_pure self c color background st :
  (∃ tile st1,
      _render_char self c color background st = (Ok tile, st1)
      ∧ _render_char self c color background st1 = (Ok tile, st1)
      ∧ TILE_CACHE st1 !! (c, color, background) = Some tile)
  ∧ (∀ st', accumulated self st' →
       ∀ obs fgo bgo,
         fst (render self obs fgo bgo st')
         = fst (render self obs fgo bgo empty_store)
         ∧ fst (render self obs fgo bgo st') = render_uncached self obs fgo bgo).
Proof.
  split.
  - rewrite _render_char_run.
    destruct (TILE_CACHE st !! (c, color, background)) as [v|] eqn:Hk.
    + exists v, st. rewrite _render_char_run, Hk. done.
    + eexists _, _. split; [reflexivity|].
      rewrite _render_char_run. cbn [TILE_CACHE].
      by rewrite lookup_insert_eq.
  - intros st' Hacc obs fgo bgo.
    destruct (render_computes self obs fgo bgo st') as [-> _];
      [by apply accumulated_sound|].
    destruct (render_computes self obs fgo bgo empty_store) as [-> _];
      [apply empty_store_sound|].
    done.
Qed.

(** ** Shapes *)

Lemma has_shape_at_least {A} h w h' w' (a : list (list A)) :
  has_shape h w a → (h' ≤ h)%nat → (w' ≤ w)%nat → at_least h' w' a.
Proof.
  intros [Hh Hw] Hh' Hw'. split; [lia|].
  eapply Forall_impl; [exact Hw|]. intros r Hr. simpl in Hr. lia.
Qed.

Lemma at_least_getitem2 {A} h w (a : list (list A)) y x :
  at_least h w a → (y < h)%nat → (x < w)%nat →
  ∃ r v, a !! y = Some r ∧ r !! x = Some v ∧ getitem2 a y x = Ok v.
Proof.
  intros [Hh Hw] Hy Hx. unfold getitem2.
  destruct (lookup_lt_is_Some_2 a y) as [r Hr]; [lia|].
  pose proof (Forall_lookup_1 _ _ _ _ Hw Hr) as Hlen. simpl in Hlen.
  destruct (lookup_lt_is_Some_2 r x) as [v Hv]; [lia|].
  exists r, v. by rewrite Hr, Hv.
Qed.

Lemma getitem2_raises_rows {A} (a : list (list A)) y x :
  (length a ≤ y)%nat → getitem2 a y x = Raise IndexError.
Proof.
  intros Hy. unfold getitem2. by rewrite (lookup_ge_None_2 a y).
Qed.

Lemma getitem2_raises_cols {A} h w (a : list (list A)) y x :
  has_shape h w a → (w ≤ x)%nat → getitem2 a y x = Raise IndexError.
Proof.
  intros [_ Hw] Hx. unfold getitem2.
  destruct (a !! y) as [r|] eqn:Hr; [|done].
  pose proof (Forall_lookup_1 _ _ _ _ Hw Hr) as Hlen. simpl in Hlen.
  rewrite (lookup_ge_None_2 r x); [done | lia].
Qed.

Lemma crop_16_8_shape (a : image) :
  at_least 16 8 a → has_shape 16 8 (crop_16_8 a).
Proof.
  intros [Hh Hw]. unfold crop_16_8. split.
  - rewrite length_fmap, length_take. lia.
  - apply Forall_fmap, Forall_take.
    eapply Forall_impl; [exact Hw|]. intros r Hr. simpl in *.
    rewrite length_take. lia.
Qed.

Lemma crop_16_8_pixel (a : image) i j :
  (i < 16)%nat → (j < 8)%nat → pixel (crop_16_8 a) i j = pixel a i j.
Proof.
  intros Hi Hj. unfold pixel, crop_16_8.
  rewrite list_lookup_fmap, lookup_take_lt by done.
  destruct (a !! i) as [r|]; [|done]. simpl.
  by rewrite lookup_take_lt.
Qed.

(** The rows of the tiles joined side by side. *)
Lemma hjoin_spec {A} (h w : nat) (tiles : list (list (list A))) :
  Forall (has_shape h w) tiles →
  has_shape h (length tiles * w) (foldr (zip_with app) (replicate h []) tiles)
  ∧ ∀ k t i j, tiles !! k = Some t → (i < h)%nat → (j < w)%nat →
      foldr (zip_with app) (replicate h []) tiles !! i ≫= (.!! (k * w + j)%nat)
      = t !! i ≫= (.!! j).
Proof.
  induction 1 as [|t tiles [Hth Htw] _ [[IHh IHw] IHp]]; simpl.
  { split; [|done]. split; [by rewrite length_replicate|].
    by apply Forall_replicate. }
  split; [split|].
  - rewrite length_zip_with. lia.
  - apply Forall_lookup_2. intros i r.
    rewrite lookup_zip_with.
    destruct (t !! i) as [ti|] eqn:Hti; [|done]. simpl.
    destruct (foldr _ _ tiles !! i) as [ri|] eqn:Hri; [|done]. simpl.
    intros [= <-]. rewrite length_app.
    pose proof (Forall_lookup_1 _ _ _ _ Htw Hti) as ->.
    pose proof (Forall_lookup_1 _ _ _ _ IHw Hri) as Hl. simpl in Hl. lia.
  - intros k u i j Hk Hi Hj.
    rewrite lookup_zip_with.
    destruct (lookup_lt_is_Some_2 t i) as [ti Hti]; [lia|].
    destruct (lookup_lt_is_Some_2 (foldr (zip_with app) (replicate h []) tiles) i)
      as [ri Hri]; [lia|].
    rewrite Hti, Hri. simpl.
    pose proof (Forall_lookup_1 _ _ _ _ Htw Hti) as Hlen. simpl in Hlen.
    destruct k as [|k]; simpl in Hk.
    + injection Hk as <-. rewrite Hti. simpl.
      apply lookup_app_l. lia.
    + rewrite lookup_app_r by lia.
      replace (S k * w + j - length ti)%nat with (k * w + j)%nat by lia.
      specialize (IHp k u i j Hk Hi Hj). by rewrite Hri in IHp.
Qed.

Lemma hstack_spec (h w : nat) (tiles : list image) :
  tiles ≠ [] → Forall (has_shape h w) tiles →
  ∃ img, hstack tiles = Ok img
         ∧ has_shape h (length tiles * w) img
         ∧ ∀ k t i j, tiles !! k = Some t → (i < h)%nat → (j < w)%nat →
             pixel img i (k * w + j) = pixel t i j.
Proof.
  intros Hne Hall. destruct tiles as [|t ts]; [done|].
  unfold hstack.
  assert (Hlen : length t = h) by (by inversion Hall as [|? ? [? ?]]).
  assert (forallb (λ u, Nat.eqb (length u) (length t)) ts = true) as ->.
  { apply forallb_forall. intros u Hu. apply Nat.eqb_eq.
    inversion Hall as [|? ? _ Hts]; subst.
    apply list_elem_of_In in Hu.
    by destruct (proj1 (Forall_forall _ _) Hts u Hu). }
  rewrite Hlen. eexists. split; [reflexivity|].
  apply (hjoin_spec h w (t :: ts) Hall).
Qed.

Lemma concat_uniform_spec {A} (h : nat) (rows : list (list A)) :
  Forall (λ r, length r = h) rows →
  length (concat rows) = (length rows * h)%nat
  ∧ ∀ k r i, rows !! k = Some r → (i < h)%nat →
      concat rows !! (k * h + i)%nat = r !! i.
Proof.
  induction 1 as [|r rows Hr _ [IHl IHp]]; simpl; [done|].
  split; [rewrite length_app; lia|].
  intros k u i Hk Hi. destruct k as [|k]; simpl in Hk.
  - injection Hk as <-. simpl. apply lookup_app_l. lia.
  - rewrite lookup_app_r by lia.
    replace (S k * h + i - length r)%nat with (k * h + i)%nat by lia.
    by apply IHp.
Qed.

Lemma vstack_spec (h w : nat) (rows : list image) :
  rows ≠ [] → Forall (has_shape h w) rows →
  ∃ img, vstack rows = Ok img
         ∧ has_shape (length rows * h) w img
         ∧ ∀ k r i c, rows !! k = Some r → (i < h)%nat →
             pixel img (k * h + i) c = pixel r i c.
Proof.
  intros Hne Hall. destruct rows as [|r rs]; [done|].
  unfold vstack.
  assert (Hwidth : ∀ u : image, has_shape h w u →
            width u = if decide (h = 0%nat) then 0%nat else w).
  { intros u [Hh Hw]. destruct u as [|u0 u]; simpl in *.
    - by rewrite decide_True.
    - rewrite decide_False by lia. by inversion Hw. }
  assert (forallb (λ u, Nat.eqb (width u) (width r)) rs = true) as ->.
  { apply forallb_forall. intros u Hu. apply Nat.eqb_eq.
    inversion Hall as [|? ? Hr Hrs]; subst.
    apply list_elem_of_In in Hu.
    rewrite (Hwidth r Hr).
    apply Hwidth. exact (proj1 (Forall_forall _ _) Hrs u Hu). }
  eexists. split; [reflexivity|].
  destruct (concat_uniform_spec h (r :: rs)) as [Hl Hp].
  { eapply Forall_impl; [exact Hall|]. by intros u [? ?]. }
  split; [split; [exact Hl|]|].
  - apply Forall_forall. intros row Hrow.
    apply list_elem_of_In, in_concat in Hrow as (u & Hu & Hin).
    apply list_elem_of_In in Hu.
    destruct (proj1 (Forall_forall _ _) Hall u Hu) as [_ Hw].
    apply (proj1 (Forall_forall _ _) Hw row). by apply list_elem_of_In.
  - intros k u i c Hk Hi. unfold pixel. by rewrite (Hp k u i Hk Hi).
Qed.

Lemma rmapM_is_ok {A B} (f : A → result B) (l : list A) :
  (∀ x, x ∈ l → is_ok (f x)) →
  ∃ l', rmapM f l = Ok l'
        ∧ length l' = length l
        ∧ ∀ i x, l !! i = Some x → ∃ y, f x = Ok y ∧ l' !! i = Some y.
Proof.
  intros Hf.
  assert (∃ l', rmapM f l = Ok l') as [l' Hl'].
  { induction l as [|x l IH]; simpl; [by eexists|].
    destruct (Hf x) as [y ->]; [by left|].
    destruct IH as [ys ->]; [|by eexists].
    intros z Hz. apply Hf. by right. }
  exists l'. split; [done|]. split; [by eapply rmapM_length|].
  intros i x. by apply rmapM_lookup.
Qed.

(** ** The composition of the tiles *)

Lemma clip_range lo hi v : lo ≤ hi → lo ≤ clip lo hi v ≤ hi.
Proof. unfold clip. lia. Qed.

Lemma getitem2_np_clip (a : grid) lo hi y x :
  getitem2 (np_clip a lo hi) y x = (v ← getitem2 a y x; mret (clip lo hi v)).
Proof.
  unfold getitem2, np_clip. rewrite list_lookup_fmap.
  destruct (a !! y) as [r|]; [|done]. simpl.
  rewrite list_lookup_fmap. by destruct (r !! x).
Qed.

Lemma chr_represent_char v :
  chr (represent_char (clip 0 255 v)) = Ok (represent_char (clip 0 255 v)).
Proof.
  pose proof (represent_char_range (clip 0 255 v) (clip_range 0 255 v ltac:(lia))).
  unfold chr.
  destruct (Z.leb_spec 0 (represent_char (clip 0 255 v))); [|lia].
  destruct (Z.ltb_spec (represent_char (clip 0 255 v)) 0x110000); [done|lia].
Qed.

(** ** The order in which the tiles are asked for *)

Lemma foldl_draw_tile_sound self keys st :
  cache_sound self st → cache_sound self (foldl (draw_tile self) st keys).
Proof.
  revert st. induction keys as [|key keys IH]; intros st Hst; [done|].
  simpl. by apply IH, draw_tile_sound.
Qed.

Lemma backend_calls_foldl self keys st :
  cache_sound self st →
  backend_calls (foldl (draw_tile self) st keys)
  = foldl draw_call (backend_calls st) keys.
Proof.
  revert st. induction keys as [|key keys IH]; intros st Hst; [done|].
  simpl. rewrite IH by by apply draw_tile_sound. f_equal.
  destruct Hst as [_ Hcalls]. unfold draw_tile, draw_call.
  destruct (TILE_CACHE st !! key) as [v|] eqn:Hk.
  - rewrite decide_True; [done|]. apply Hcalls. by rewrite Hk.
  - rewrite decide_False; [done|]. rewrite Hcalls, Hk. by intros [? ?].
Qed.

Lemma draws_lift {A} self (r : result A) a (Q : A → Prop) :
  r = Ok a → Q a → draws self [] (lift r) Q.
Proof. intros -> HQ st _. by exists a. Qed.

Lemma draws_bind {A B} self keys keys' (m : M A) (k : A → M B)
    (Q : A → Prop) (Q' : B → Prop) :
  draws self keys m Q →
  (∀ a, Q a → draws self keys' (k a) Q') →
  draws self (keys ++ keys') (m ≫= k) Q'.
Proof.
  intros Hm Hk st Hst. destruct (Hm st Hst) as (a & Ha & HQ).
  rewrite bind_run, Ha, foldl_app.
  apply Hk; [done|]. by apply foldl_draw_tile_sound.
Qed.

Lemma draws_smapM {A B} self (f : A → M B) (kf : A → list tile_key)
    (Q : B → Prop) (l : list A) :
  (∀ x, x ∈ l → draws self (kf x) (f x) Q) →
  draws self (concat (kf <$> l)) (smapM f l)
        (λ ys, length ys = length l ∧ Forall Q ys).
Proof.
  induction l as [|x l IH]; intros Hf.
  { intros st _. by exists []. }
  rewrite fmap_cons. cbn [concat smapM].
  eapply draws_bind; [apply Hf; by left|]. intros y Hy.
  rewrite <- (app_nil_r (concat (kf <$> l))).
  eapply draws_bind.
  - apply IH. intros z Hz. apply Hf. by right.
  - intros ys [Hlen Hys] st _. exists (y :: ys). split; [done|].
    split; [simpl; by rewrite Hlen | by constructor].
Qed.

Lemma concat_singletons {A B} (f : A → B) (l : list A) :
  concat ((λ x, [f x]) <$> l) = f <$> l.
Proof. induction l as [|x l IH]; [done|]. rewrite !fmap_cons. simpl. by rewrite IH. Qed.

Section composition.
Variable self : ImageRenderer.
Variables (a : grid) (fg bg : image).
Hypothesis font_size : ∀ c color background,
  at_least 16 8 (_font self c color background).
Hypothesis chars_size : at_least 24 80 a.
Hypothesis fg_size : at_least 24 80 fg.
Hypothesis bg_size : at_least 24 80 bg.

Lemma tile_at_spec x y :
  (y < 24)%nat → (x < 80)%nat →
  ∃ v color background,
    getitem2 a y x = Ok v ∧ getitem2 fg y x = Ok color
    ∧ getitem2 bg y x = Ok background
    ∧ tile_at self (np_clip a 0 255) fg bg x y
      = Ok (tile_of self (represent_char (clip 0 255 v), color, background)).
Proof.
  intros Hy Hx.
  destruct (at_least_getitem2 24 80 a y x) as (? & v & _ & _ & Hv); [done..|].
  destruct (at_least_getitem2 24 80 fg y x) as (? & color & _ & _ & Hc);
    [done..|].
  destruct (at_least_getitem2 24 80 bg y x) as (? & background & _ & _ & Hb);
    [done..|].
  exists v, color, background. repeat split; [done..|].
  unfold tile_at. rewrite getitem2_np_clip, Hv, Hc, Hb.
  cbn [mbind result_bind rbind mret result_ret].
  by rewrite chr_represent_char.
Qed.

Lemma row_spec y :
  (y < 24)%nat →
  ∃ row,
    row_uncached self (np_clip a 0 255) fg bg y = Ok row
    ∧ has_shape 16 640 row
    ∧ ∀ x i j, (x < 80)%nat → (i < 16)%nat → (j < 8)%nat →
        ∃ v color background,
          getitem2 a y x = Ok v ∧ getitem2 fg y x = Ok color
          ∧ getitem2 bg y x = Ok background
          ∧ pixel row i (x * 8 + j)
            = pixel (_font self (represent_char (clip 0 255 v))
                           color background) i j.
Proof.
  intros Hy. unfold row_uncached.
  destruct (rmapM_is_ok (λ x, tile_at self (np_clip a 0 255) fg bg x y)
              (seq 0 80)) as (tiles & -> & Hlen & Htiles).
  { intros x Hx. apply elem_of_seq in Hx.
    destruct (tile_at_spec x y) as (? & ? & ? & _ & _ & _ & ->);
      [lia..|by eexists]. }
  rewrite length_seq in Hlen.
  cbn [mbind result_bind rbind].
  destruct (hstack_spec 16 8 tiles) as (row & Hrow & Hshape & Hpix).
  { intros ->. done. }
  { apply Forall_lookup_2. intros x t Ht.
    pose proof (lookup_lt_Some _ _ _ Ht) as Hx. rewrite Hlen in Hx.
    destruct (Htiles x x) as (t' & Ht' & Hlook);
      [by rewrite lookup_seq_lt|].
    rewrite Ht in Hlook. injection Hlook as <-.
    destruct (tile_at_spec x y) as (? & ? & ? & _ & _ & _ & Heq); [lia..|].
    rewrite Heq in Ht'. injection Ht' as <-.
    apply crop_16_8_shape, font_size. }
  exists row. split; [done|]. rewrite Hlen in Hshape. split; [done|].
  intros x i j Hx Hi Hj.
  destruct (tile_at_spec x y) as (v & color & background & Hv & Hc & Hb & Heq);
    [lia..|].
  exists v, color, background. repeat split; [done..|].
  destruct (Htiles x x) as (t & Ht & Hlook); [by rewrite lookup_seq_lt|].
  rewrite Heq in Ht. injection Ht as <-.
  rewrite (Hpix x _ i j Hlook Hi Hj).
  by apply crop_16_8_pixel.
Qed.

Lemma compose_uncached_spec :
  ∃ img,
    compose_uncached self (np_clip a 0 255) fg bg = Ok img
    ∧ has_shape 384 640 img
    ∧ ∀ y x i j, (y < 24)%nat → (x < 80)%nat → (i < 16)%nat → (j < 8)%nat →
        ∃ v color background,
          getitem2 a y x = Ok v ∧ getitem2 fg y x = Ok color
          ∧ getitem2 bg y x = Ok background
          ∧ pixel img (y * 16 + i) (x * 8 + j)
            = pixel (_font self (represent_char (clip 0 255 v))
                           color background) i j.
Proof.
  unfold compose_uncached.
  destruct (rmapM_is_ok (row_uncached self (np_clip a 0 255) fg bg)
              (seq 0 24)) as (rows & -> & Hlen & Hrows).
  { intros y Hy. apply elem_of_seq in Hy.
    destruct (row_spec y) as (row & -> & _); [lia|by eexists]. }
  rewrite length_seq in Hlen.
  cbn [mbind result_bind rbind].
  destruct (vstack_spec 16 640 rows) as (img & Himg & Hshape & Hpix).
  { intros ->. done. }
  { apply Forall_lookup_2. intros y r Hr.
    pose proof (lookup_lt_Some _ _ _ Hr) as Hy. rewrite Hlen in Hy.
    destruct (Hrows y y) as (r' & Hr' & Hlook); [by rewrite lookup_seq_lt|].
    rewrite Hr in Hlook. injection Hlook as <-.
    destruct (row_spec y) as (row & Hrow & Hsh & _); [lia|].
    rewrite Hrow in Hr'. by injection Hr' as <-. }
  exists img. split; [done|]. rewrite Hlen in Hshape. split; [done|].
  intros y x i j Hy Hx Hi Hj.
  destruct (row_spec y) as (row & Hrow & _ & Hcells); [lia|].
  destruct (Hcells x i j Hx Hi Hj)
    as (v & color & background & Hv & Hc & Hb & Heq).
  exists v, color, background. repeat split; [done..|].
  destruct (Hrows y y) as (r & Hr & Hlook); [by rewrite lookup_seq_lt|].
  rewrite Hrow in Hr. injection Hr as <-.
  by rewrite (Hpix y _ i _ Hlook Hi).
Qed.
Lemma cell_getitem2 {A} (d : A) (b : list (list A)) y x v :
  getitem2 b y x = Ok v → cell d b y x = v.
Proof.
  unfold getitem2, cell. destruct (b !! y) as [r|]; [|done]. simpl.
  destruct (r !! x); [|done]. by intros [= ->].
Qed.

Lemma draws_render_pos x y :
  (y < 24)%nat → (x < 80)%nat →
  draws self [cell_key a fg bg y x]
        (_render_pos self (np_clip a 0 255) fg bg x y) (has_shape 16 8).
Proof.
  intros Hy Hx st Hst.
  destruct (at_least_getitem2 24 80 a y x) as (? & v & _ & _ & Hv); [done..|].
  destruct (at_least_getitem2 24 80 fg y x) as (? & color & _ & _ & Hc);
    [done..|].
  destruct (at_least_getitem2 24 80 bg y x) as (? & background & _ & _ & Hb);
    [done..|].
  unfold _render_pos, cell_key.
  rewrite (cell_getitem2 _ _ _ _ _ Hv), (cell_getitem2 _ _ _ _ _ Hc),
    (cell_getitem2 _ _ _ _ _ Hb).
  rewrite getitem2_np_clip, Hv, Hc, Hb.
  cbn [mbind result_bind rbind mret result_ret].
  rewrite chr_represent_char. cbv [mbind M_bind lift]. cbn [foldl].
  rewrite (_render_char_draw _ _ _ _ _ Hst).
  eexists. split; [reflexivity|]. apply crop_16_8_shape, font_size.
Qed.

Lemma draws_row y :
  (y < 24)%nat →
  draws self (cell_key a fg bg y <$> seq 0 80)
        (tiles ← smapM (λ x, _render_pos self (np_clip a 0 255) fg bg x y)
                       (seq 0 80);
         lift (hstack tiles))
        (has_shape 16 640).
Proof.
  intros Hy.
  rewrite <- (app_nil_r (cell_key a fg bg y <$> seq 0 80)).
  rewrite <- (concat_singletons (cell_key a fg bg y) (seq 0 80)).
  eapply draws_bind.
  - apply (draws_smapM self _ (λ x, [cell_key a fg bg y x])
             (has_shape 16 8)).
    intros x Hx %elem_of_seq. apply draws_render_pos; [done|lia].
  - intros tiles [Hlen Htiles]. rewrite length_seq in Hlen.
    destruct (hstack_spec 16 8 tiles) as (img & Himg & Hshape & _);
      [by destruct tiles|done|].
    rewrite Hlen in Hshape. by apply (draws_lift self _ img).
Qed.

Lemma draws_compose_tiles :
  draws self (cell_keys a fg bg)
        (compose_tiles self (np_clip a 0 255) fg bg) (has_shape 384 640).
Proof.
  unfold compose_tiles, cell_keys.
  rewrite <- (app_nil_r (concat _)).
  eapply draws_bind.
  - apply (draws_smapM self _ (λ y, cell_key a fg bg y <$> seq 0 80)
             (has_shape 16 640)).
    intros y Hy %elem_of_seq. apply draws_row. lia.
  - intros rows [Hlen Hrows]. rewrite length_seq in Hlen.
    destruct (vstack_spec 16 640 rows) as (img & Himg & Hshape & _);
      [by destruct rows|done|].
    rewrite Hlen in Hshape. by apply (draws_lift self _ img).
Qed.
End composition.

(** ** Colour lookups *)

Lemma getitem_clip (table : list rgb) hi v :
  0 ≤ hi → length table = Z.to_nat (hi + 1) →
  getitem table (clip 0 hi v) = Ok (lookup_clipped table hi v).
Proof.
  intros Hhi Hlen. pose proof (clip_range 0 hi v Hhi) as Hc.
  unfold getitem, py_index, lookup_clipped. rewrite Hlen.
  destruct (Z.leb_spec 0 (clip 0 hi v)); [|lia].
  destruct (Z.ltb_spec (clip 0 hi v) (Z.of_nat (Z.to_nat (hi + 1)))); [|lia].
  cbn [andb mbind result_bind rbind].
  destruct (lookup_lt_is_Some_2 table (Z.to_nat (clip 0 hi v))) as [col ->];
    [lia|done].
Qed.

Lemma rmapM_fmap_ok {A B C} (f : B → result C) (g : A → C) (h : A → B) l :
  (∀ x, f (h x) = Ok (g x)) → rmapM f (h <$> l) = Ok (g <$> l).
Proof.
  intros Hf. induction l as [|x l IH]; [done|].
  rewrite !fmap_cons. cbn [rmapM]. by rewrite Hf, IH.
Qed.

Lemma take_table_np_clip (table : list rgb) (a : grid) hi :
  0 ≤ hi → length table = Z.to_nat (hi + 1) →
  take_table table (np_clip a 0 hi)
  = Ok ((λ row : list Z, lookup_clipped table hi <$> row) <$> a).
Proof.
  intros Hhi Hlen. unfold take_table, np_clip.
  apply rmapM_fmap_ok. intros row.
  apply rmapM_fmap_ok. intros v. by apply getitem_clip.
Qed.

Lemma has_shape_fmap {A B} (f : A → B) h w (a : list (list A)) :
  has_shape h w a → has_shape h w ((λ row : list A, f <$> row) <$> a).
Proof.
  intros [Hh Hw]. split; [by rewrite length_fmap|].
  apply Forall_fmap. eapply Forall_impl; [exact Hw|].
  intros r Hr. simpl. by rewrite length_fmap.
Qed.

Lemma getitem2_fmap {A B} (f : A → B) (a : list (list A)) y x :
  getitem2 ((λ row : list A, f <$> row) <$> a) y x
  = (v ← getitem2 a y x; mret (f v)).
Proof.
  unfold getitem2. rewrite list_lookup_fmap.
  destruct (a !! y) as [r|]; [|done]. simpl.
  rewrite list_lookup_fmap. by destruct (r !! x).
Qed.

Lemma np_zeros_shape h w : has_shape h w (np_zeros h w).
Proof.
  split; [apply length_replicate|].
  apply Forall_replicate, length_replicate.
Qed.

Lemma np_zeros_getitem2 h w r c :
  (r < h)%nat → (c < w)%nat → getitem2 (np_zeros h w) r c = Ok (0, 0, 0).
Proof.
  intros Hr Hc. unfold getitem2, np_zeros.
  by rewrite !lookup_replicate_2.
Qed.

(** [a[i, j] = v] at a position inside the array. *)
Lemma setitem2_spec {A} h w (a : list (list A)) (i j : Z) (v : A) :
  has_shape h w a → 0 ≤ i < Z.of_nat h → 0 ≤ j < Z.of_nat w →
  ∃ a', setitem2 a i j v = Ok a'
        ∧ has_shape h w a'
        ∧ getitem2 a' (Z.to_nat i) (Z.to_nat j) = Ok v
        ∧ ∀ r c, (r, c) ≠ (Z.to_nat i, Z.to_nat j) →
                 getitem2 a' r c = getitem2 a r c.
Proof.
  intros [Hh Hw] Hi Hj.
  assert (Hwidth : width a = w).
  { destruct a as [|r a]; simpl in *; [lia|]. by inversion Hw. }
  unfold setitem2, py_index. rewrite Hh, Hwidth.
  destruct (Z.leb_spec 0 i); [|lia]. destruct (Z.ltb_spec i (Z.of_nat h)); [|lia].
  destruct (Z.leb_spec 0 j); [|lia]. destruct (Z.ltb_spec j (Z.of_nat w)); [|lia].
  cbn [andb mbind result_bind rbind mret result_ret].
  eexists. split; [reflexivity|].
  destruct (lookup_lt_is_Some_2 a (Z.to_nat i)) as [row Hrow]; [lia|].
  pose proof (Forall_lookup_1 _ _ _ _ Hw Hrow) as Hlen. simpl in Hlen.
  split; [split|split].
  - by rewrite length_alter.
  - apply Forall_alter; [done|]. intros r _ Hr. by rewrite length_insert.
  - unfold getitem2. rewrite list_lookup_alter_eq, Hrow. simpl.
    rewrite list_lookup_insert_eq by lia. done.
  - intros r c Hrc. unfold getitem2.
    destruct (decide (r = Z.to_nat i)) as [->|Hr].
    + rewrite list_lookup_alter_eq, Hrow. simpl.
      rewrite list_lookup_insert_ne by congruence. done.
    + by rewrite list_lookup_alter_ne.
Qed.

(** The padding of a 21 x 79 grid of specials. *)
Lemma np_pad_specials_shape (sp : grid) :
  has_shape 21 79 sp → has_shape 24 80 (np_pad sp 1 2 0 1).
Proof.
  intros [Hh Hw].
  assert (Hwidth : width sp = 79%nat).
  { destruct sp as [|r sp]; simpl in *; [lia|]. by inversion Hw. }
  unfold np_pad. rewrite Hwidth. split.
  - rewrite !length_app, length_fmap, !length_replicate. lia.
  - repeat apply Forall_app_2.
    + apply Forall_replicate. by rewrite length_replicate.
    + apply Forall_fmap. eapply Forall_impl; [exact Hw|].
      intros r Hr. simpl in *. rewrite length_app. simpl. lia.
    + apply Forall_replicate. by rewrite length_replicate.
Qed.

Lemma np_pad_specials_cells (sp : grid) r c :
  has_shape 21 79 sp → (r < 24)%nat → (c < 80)%nat →
  getitem2 (np_pad sp 1 2 0 1) r c
  = if decide (1 ≤ r ≤ 21 ∧ c < 79)%nat then getitem2 sp (r - 1) c else Ok 0.
Proof.
  intros [Hh Hw] Hr Hc.
  assert (Hwidth : width sp = 79%nat).
  { destruct sp as [|r0 sp]; simpl in *; [lia|]. by inversion Hw. }
  unfold np_pad. rewrite Hwidth.
  change (replicate 1 (replicate (0 + 79 + 1) 0)) with [replicate 80 0].
  change (replicate (0 + 79 + 1) 0) with (replicate 80 0).
  change (replicate 0 0) with (@nil Z).
  unfold getitem2.
  destruct (decide (r = 0)%nat) as [->|Hr0].
  { rewrite decide_False by lia. cbn [app lookup list_lookup].
    by rewrite lookup_replicate_2. }
  rewrite lookup_app_r by (cbn [length]; lia). cbn [length].
  destruct (decide (r - 1 < 21)%nat) as [Hlt|Hge].
  - rewrite lookup_app_l by (rewrite length_fmap; lia).
    rewrite list_lookup_fmap.
    destruct (lookup_lt_is_Some_2 sp (r - 1)) as [row Hrow]; [lia|].
    rewrite Hrow. cbn [fmap option_fmap option_map app].
    pose proof (Forall_lookup_1 _ _ _ _ Hw Hrow) as Hlen. simpl in Hlen.
    destruct (decide (c < 79)%nat) as [Hc'|Hc'].
    + rewrite decide_True by lia. by rewrite lookup_app_l by lia.
    + rewrite decide_False by lia.
      rewrite lookup_app_r by lia.
      by replace (c - length row)%nat with 0%nat by lia.
  - rewrite decide_False by lia.
    rewrite lookup_app_r by (rewrite length_fmap; lia).
    rewrite length_fmap, Hh.
    rewrite lookup_replicate_2 by lia.
    by rewrite lookup_replicate_2 by lia.
Qed.

(** ** The renderer that [__init__] builds *)

Lemma init_inv host nh sysfont self :
  init host nh sysfont = Ok self →
  self = {| _font := sysfont; _colors_map := palette host;
            _bgcolors := bgcolors_of host;
            _specials_map := specials_table host nh |}.
Proof. rewrite init_ok. by intros [= <-]. Qed.

Lemma palette_length host : length (palette host) = 16%nat.
Proof. by destruct host. Qed.

Lemma specials_table_length host nh : length (specials_table host nh) = 256%nat.
Proof. unfold specials_table, range. by rewrite !length_fmap, length_seq. Qed.

Lemma bgcolors_of_cursor host : is_Some (bgcolors_of host !! "cursor").
Proof. destruct host; vm_compute; eauto. Qed.

Lemma bgcolors_of_default host : bgcolors_of host !! "default" = Some (0, 0, 0).
Proof. destruct host; by vm_compute. Qed.

Lemma get_special_background_0 nh : get_special_background nh 0 = "default".
Proof. unfold get_special_background. by rewrite !Z.land_0_l. Qed.

Lemma specials_table_0 host nh :
  lookup_clipped (specials_table host nh) 255 0 = (0, 0, 0).
Proof.
  unfold lookup_clipped, specials_table, range.
  change (Z.to_nat (clip 0 255 0)) with 0%nat.
  rewrite !list_lookup_fmap, lookup_seq_lt by lia.
  cbn [fmap option_fmap option_map default Nat.add Z.of_nat].
  by rewrite get_special_background_0, bgcolors_of_default.
Qed.

Lemma background_of_derived self obs :
  background_of self obs None
  = (derived ← derived_background self obs;
     match tty_cursor obs with
     | Some cur =>
         cursor ← dict_get (_bgcolors self) "cursor";
         setitem2 derived (snd cur) (fst cur) cursor
     | None => Ok derived
     end).
Proof. reflexivity. Qed.

Lemma derived_background_ok host nh sysfont self obs :
  init host nh sysfont = Ok self →
  background_sources_ok obs →
  ∃ derived, derived_background self obs = Ok derived
             ∧ has_shape 24 80 derived.
Proof.
  intros -> %init_inv Hsrc.
  unfold derived_background, background_sources_ok in *.
  cbn [_specials_map _colors_map].
  destruct (specials obs) as [sp|].
  - rewrite take_table_np_clip by (by rewrite ?specials_table_length).
    eexists. split; [done|].
    by apply has_shape_fmap, np_pad_specials_shape.
  - destruct (tty_background obs) as [tb|].
    + rewrite take_table_np_clip by (by rewrite ?palette_length).
      eexists. split; [done|]. by apply has_shape_fmap.
    + eexists. split; [done|]. apply np_zeros_shape.
Qed.

Lemma background_of_ok host nh sysfont self obs bgo :
  init host nh sysfont = Ok self →
  match bgo with
  | Some b => has_shape 24 80 b
  | None => background_sources_ok obs ∧ cursor_ok obs
  end →
  ∃ bg, background_of self obs bgo = Ok bg ∧ has_shape 24 80 bg.
Proof.
  intros Hinit Hbg. destruct bgo as [b|]; [by exists b|].
  destruct Hbg as [Hsrc Hcur].
  destruct (derived_background_ok _ _ _ _ _ Hinit Hsrc) as (d & Hd & Hshape).
  rewrite background_of_derived, Hd. cbn [mbind result_bind rbind].
  unfold cursor_ok in Hcur.
  destruct (tty_cursor obs) as [[x y]|]; [|by exists d].
  apply init_inv in Hinit as ->. cbn [_bgcolors].
  unfold dict_get. destruct (bgcolors_of_cursor host) as [cursor ->].
  cbn [mbind result_bind rbind fst snd].
  destruct (setitem2_spec 24 80 d y x cursor) as (bg & -> & ? & _);
    [done|lia..|].
  by exists bg.
Qed.

Lemma foreground_of_ok host nh sysfont self obs fgo :
  init host nh sysfont = Ok self →
  match fgo with
  | Some f => has_shape 24 80 f
  | None => ∃ colors, tty_colors obs = Some colors ∧ has_shape 24 80 colors
  end →
  ∃ fg, foreground_of self obs fgo = Ok fg ∧ has_shape 24 80 fg.
Proof.
  intros -> %init_inv Hfg. destruct fgo as [f|]; [by exists f|].
  destruct Hfg as (colors & Hcolors & Hshape).
  unfold foreground_of. rewrite Hcolors. cbn [obs_get mbind result_bind rbind].
  cbn [_colors_map].
  rewrite take_table_np_clip by (by rewrite ?palette_length).
  eexists. split; [done|]. by apply has_shape_fmap.
Qed.

(** ** A concrete renderer and concrete frames *)

Lemma demo_renderer_init : init little nethack block_font = Ok demo_renderer.
Proof. apply init_ok. Qed.

Lemma block_font_size c color background :
  at_least 16 8 (block_font c color background).
Proof.
  unfold block_font, range. split.
  - rewrite !length_fmap, length_seq. lia.
  - apply Forall_fmap, Forall_forall. intros i _. unfold compose. cbv beta.
    rewrite !length_fmap, length_seq. lia.
Qed.

Lemma constant_grid_shape h w v : has_shape h w (constant_grid h w v).
Proof.
  split; [apply length_replicate|].
  apply Forall_replicate, length_replicate.
Qed.

(** ** The background of the cells *)

(** C2: when the observation has a cursor [(x, y)] inside the terminal,
    neither [specials] nor [tty_background], and no background override is
    given, [render] composes the tiles with a background array in which the
    cell of row [y], column [x] has the colour of the situation [cursor] and
    every other cell is black. *)
Theorem cursor_background host nh sysfont self obs (x y : Z) fgo :
  init host nh sysfont = Ok self →
  tty_cursor obs = Some (x, y) → 0 ≤ x < 80 → 0 ≤ y < 24 →
  specials obs = None → tty_background obs = None →
  ∃ cursor bg,
    dict_get (_bgcolors self) "cursor" = Ok cursor
    ∧ background_of self obs None = Ok bg
    ∧ has_shape 24 80 bg
    ∧ getitem2 bg (Z.to_nat y) (Z.to_nat x) = Ok cursor
    ∧ (∀ r c, (r < 24)%nat → (c < 80)%nat →
              (r, c) ≠ (Z.to_nat y, Z.to_nat x) →
              getitem2 bg r c = Ok (0, 0, 0))
    ∧ ∀ st, render self obs fgo None st
            = (fg ← lift (foreground_of self obs fgo);
               chars ← lift (a ← obs_get (tty_chars obs);
                             mret (np_clip a 0 255));
               compose_tiles self chars fg bg) st.
Proof.
  intros -> %init_inv Hcur Hx Hy Hsp Htb.
  destruct (bgcolors_of_cursor host) as [cursor Hcursor].
  destruct (setitem2_spec 24 80 (np_zeros 24 80) y x cursor)
    as (bg & Hset & Hshape & Hat & Hother);
    [apply np_zeros_shape|lia..|].
  assert (Hbg : background_of
                  {| _font := sysfont; _colors_map := palette host;
                     _bgcolors := bgcolors_of host;
                     _specials_map := specials_table host nh |} obs None
                = Ok bg).
  { unfold background_of. rewrite Hsp, Htb, Hcur.
    cbn [mbind result_bind rbind _bgcolors fst snd].
    unfold dict_get. rewrite Hcursor. exact Hset. }
  exists cursor, bg. cbn [_bgcolors]. unfold dict_get at 1. rewrite Hcursor.
  split; [done|]. split; [exact Hbg|]. split; [exact Hshape|].
  split; [exact Hat|]. split.
  - intros r c Hr Hc Hrc. rewrite (Hother r c Hrc).
    by apply np_zeros_getitem2.
  - intros st. unfold render. rewrite !bind_run.
    unfold lift at 1 3. cbn [fst snd].
    destruct (foreground_of _ obs fgo) as [fg|e]; [|done].
    rewrite Hbg. rewrite !bind_run. unfold lift at 1. done.
Qed.

Lemma cursor_background_witness :
  ∃ bg, background_of demo_renderer (plain_frame (Some (5, 3))) None = Ok bg
        ∧ getitem2 bg 3 5 = Ok (85, 85, 85)
        ∧ getitem2 bg 3 6 = Ok (0, 0, 0).
Proof.
  destruct (cursor_background little nethack block_font demo_renderer
              (plain_frame (Some (5, 3))) 5 3 None)
    as (cursor & bg & Hcursor & Hbg & _ & Hat & Hother & _);
    [apply demo_renderer_init | reflexivity | lia | lia
    | reflexivity | reflexivity |].
  exists bg. split; [exact Hbg|]. split.
  - vm_compute in Hcursor. injection Hcursor as <-. exact Hat.
  - apply (Hother 3%nat 6%nat); [lia | lia | discriminate].
Defined.

(** C3 (as amended): when the observation has 21 x 79 [specials], a cursor
    inside the terminal or none, and no background override is given,
    [render] pads the specials with one row on top, two rows at the bottom,
    no column on the left and one on the right before the lookup in the
    table of 256 entries: the cell [(r, c)] with [1 ≤ r ≤ 21] and [c < 79]
    gets the entry of [specials[r - 1, c]], and every cell of row 0, of the
    last two rows and of the last column gets the colour of the situation
    [default], whatever the specials are -- except for the cell of the
    cursor. *)
Theorem specials_padding host nh sysfont self obs sp :
  init host nh sysfont = Ok self →
  specials obs = Some sp → has_shape 21 79 sp → cursor_ok obs →
  ∃ dflt bg,
    dict_get (_bgcolors self) "default" = Ok dflt
    ∧ background_of self obs None = Ok bg
    ∧ has_shape 24 80 bg
    ∧ (∀ r c, (r < 24)%nat → (c < 80)%nat →
              (r = 0 ∨ r = 22 ∨ r = 23 ∨ c = 79)%nat →
              tty_cursor obs ≠ Some (Z.of_nat c, Z.of_nat r) →
              getitem2 bg r c = Ok dflt)
    ∧ (∀ r c, (1 ≤ r ≤ 21)%nat → (c < 79)%nat →
              tty_cursor obs ≠ Some (Z.of_nat c, Z.of_nat r) →
              ∃ v, getitem2 sp (r - 1) c = Ok v
                   ∧ getitem2 bg r c
                     = getitem (_specials_map self) (clip 0 255 v)).
Proof.
  intros Hinit Hsp Hshape Hcur.
  pose proof Hinit as -> %init_inv.
  set (self := {| _font := sysfont; _colors_map := palette host;
                  _bgcolors := bgcolors_of host;
                  _specials_map := specials_table host nh |}) in *.
  set (derived := (λ row : list Z,
                     lookup_clipped (specials_table host nh) 255 <$> row)
                  <$> np_pad sp 1 2 0 1).
  assert (Hderived : derived_background self obs = Ok derived).
  { unfold derived_background. rewrite Hsp. cbn [_specials_map self].
    by rewrite take_table_np_clip by (by rewrite ?specials_table_length). }
  assert (Hdshape : has_shape 24 80 derived)
    by (by apply has_shape_fmap, np_pad_specials_shape).
  assert (Hborder : ∀ r c, (r < 24)%nat → (c < 80)%nat →
            (r = 0 ∨ r = 22 ∨ r = 23 ∨ c = 79)%nat →
            getitem2 derived r c = Ok (0, 0, 0)).
  { intros r c Hr Hc Hrc. unfold derived.
    rewrite getitem2_fmap, np_pad_specials_cells by done.
    rewrite decide_False by lia. cbn [mbind result_bind rbind].
    by rewrite specials_table_0. }
  assert (Hinner : ∀ r c, (1 ≤ r ≤ 21)%nat → (c < 79)%nat →
            ∃ v, getitem2 sp (r - 1) c = Ok v
                 ∧ getitem2 derived r c
                   = getitem (specials_table host nh) (clip 0 255 v)).
  { intros r c Hr Hc.
    destruct (at_least_getitem2 21 79 sp (r - 1) c) as (? & v & _ & _ & Hv);
      [by eapply has_shape_at_least|lia..|].
    exists v. split; [done|]. unfold derived.
    rewrite getitem2_fmap, np_pad_specials_cells by (done || lia).
    rewrite decide_True by lia. rewrite Hv. cbn [mbind result_bind rbind].
    by rewrite getitem_clip by (by rewrite ?specials_table_length). }
  exists (0, 0, 0). cbn [_bgcolors self]. unfold dict_get at 1.
  rewrite bgcolors_of_default.
  rewrite background_of_derived, Hderived. cbn [mbind result_bind rbind].
  unfold cursor_ok in Hcur.
  destruct (tty_cursor obs) as [[x y]|].
  - destruct (bgcolors_of_cursor host) as [cursor Hcursor].
    unfold dict_get. cbn [_bgcolors self]. rewrite Hcursor.
    cbn [mbind result_bind rbind fst snd].
    destruct (setitem2_spec 24 80 derived y x cursor)
      as (bg & -> & Hbshape & _ & Hother); [done|lia..|].
    exists bg. split; [done|]. split; [done|]. split; [done|].
    assert (Hne : ∀ r c : nat, Some (x, y) ≠ Some (Z.of_nat c, Z.of_nat r) →
              (r, c) ≠ (Z.to_nat y, Z.to_nat x)).
    { intros r c Hrc [= -> ->]. apply Hrc. f_equal. f_equal; lia. }
    split.
    + intros r c Hr Hc Hrc Hnc. rewrite Hother by by apply Hne.
      by apply Hborder.
    + intros r c Hr Hc Hnc. destruct (Hinner r c Hr Hc) as (v & Hv & Hd).
      exists v. split; [done|]. by rewrite Hother by by apply Hne.
  - exists derived. split; [done|]. split; [done|]. split; [done|].
    split.
    + intros r c Hr Hc Hrc _. by apply Hborder.
    + intros r c Hr Hc _. by apply Hinner.
Qed.

Lemma specials_padding_witness :
  ∃ bg, background_of demo_renderer (specials_frame (Some (5, 3))) None = Ok bg
        ∧ getitem2 bg 0 5 = Ok (0, 0, 0)
        ∧ getitem2 bg 23 79 = Ok (0, 0, 0)
        ∧ getitem2 bg 1 0 = Ok (255, 255, 255).
Proof.
  destruct (specials_padding little nethack block_font demo_renderer
              (specials_frame (Some (5, 3))) (constant_grid 21 79 0x48))
    as (dflt & bg & Hdflt & Hbg & _ & Hborder & Hinner);
    [apply demo_renderer_init | reflexivity | apply constant_grid_shape
    | vm_compute; repeat split; discriminate |].
  vm_compute in Hdflt. injection Hdflt as <-.
  exists bg. split; [exact Hbg|]. split; [|split].
  - apply (Hborder 0%nat 5%nat); [lia | lia | lia | discriminate].
  - apply (Hborder 23%nat 79%nat); [lia | lia | lia | discriminate].
  - destruct (Hinner 1%nat 0%nat) as (v & Hv & ->); [lia | lia | discriminate|].
    vm_compute in Hv. injection Hv as <-. reflexivity.
Defined.

(** C3 as stated fails on a frame whose cursor lies in the padding: with the
    cursor at [(5, 0)], the cell of row 0, column 5 has the colour of the
    cursor, not the colour of [default]. *)
Lemma specials_padding_cursor_counterexample :
  has_shape 21 79 (constant_grid 21 79 0x48)
  ∧ specials (specials_frame (Some (5, 0))) = Some (constant_grid 21 79 0x48)
  ∧ dict_get (_bgcolors demo_renderer) "default" = Ok (0, 0, 0)
  ∧ ∃ bg, background_of demo_renderer (specials_frame (Some (5, 0))) None
          = Ok bg
          ∧ getitem2 bg 0 5 = Ok (85, 85, 85)
          ∧ getitem2 bg 0 5 ≠ dict_get (_bgcolors demo_renderer) "default".
Proof.
  split; [apply constant_grid_shape|]. split; [reflexivity|].
  split; [by vm_compute|].
  eexists. split; [by vm_compute|]. split; by vm_compute.
Qed.

(** C9: when a background override is given, the cursor of the observation
    is not used: the override is the background array as it is, the cell of
    the cursor included, and [render] does the same (in its result and in
    the cache) whatever [tty_cursor] holds, or without it. *)
Theorem background_override_ignores_cursor self chars colors sp tb
    (cursor cursor' : option (Z * Z)) fgo (background_colors : image) st :
  let obs c := {| tty_chars := chars; tty_colors := colors; specials := sp;
                  tty_background := tb; tty_cursor := c |} in
  background_of self (obs cursor) (Some background_colors)
  = Ok background_colors
  ∧ render self (obs cursor) fgo (Some background_colors) st
    = render self (obs cursor') fgo (Some background_colors) st.
Proof. intros obs. split; [reflexivity|]. by destruct fgo. Qed.



(** ** The image *)

(** What [render] returns when every grid covers the 24 x 80 cells. *)
Lemma render_spec self obs fgo bgo st (chars : grid) (fg bg : image) :
  (∀ c color background, at_least 16 8 (_font self c color background)) →
  cache_sound self st →
  tty_chars obs = Some chars →
  foreground_of self obs fgo = Ok fg →
  background_of self obs bgo = Ok bg →
  at_least 24 80 chars → at_least 24 80 fg → at_least 24 80 bg →
  ∃ img,
    fst (render self obs fgo bgo st) = Ok img
    ∧ has_shape 384 640 img
    ∧ (∀ y x i j, (y < 24)%nat → (x < 80)%nat → (i < 16)%nat → (j < 8)%nat →
        ∃ v color background,
          getitem2 chars y x = Ok v ∧ getitem2 fg y x = Ok color
          ∧ getitem2 bg y x = Ok background
          ∧ pixel img (y * 16 + i) (x * 8 + j)
            = pixel (_font self (represent_char (clip 0 255 v))
                           color background) i j)
    ∧ snd (render self obs fgo bgo st)
      = foldl (draw_tile self) st (cell_keys chars fg bg).
Proof.
  intros Hfont Hst Hchars Hfg Hbg Hcs Hfs Hbs.
  destruct (compose_uncached_spec self chars fg bg Hfont Hcs Hfs Hbs)
    as (img & Himg & Hshape & Hpix).
  exists img. split; [|split; [done|split; [done|]]].
  - destruct (render_computes self obs fgo bgo st Hst) as [-> _].
    unfold render_uncached. rewrite Hfg, Hbg, Hchars.
    by cbn [obs_get mbind result_bind rbind mret result_ret].
  - rewrite render_run, Hfg, Hbg, Hchars.
    destruct (draws_compose_tiles self chars fg bg Hfont Hcs Hfs Hbs st Hst)
      as (img' & -> & _).
    done.
Qed.

(** C4: for a frame of the declared shapes, and a text backend whose patches
    have at least 16 rows and 8 columns, [render] returns an image of 384
    rows of 640 pixels (of three channels each), in which the 16 x 8 block
    that starts at row [16 y], column [8 x] is the top-left 16 x 8 block of
    the patch drawn for cell [(y, x)]: the character
    [represent_char (clip chars[y, x])] in the foreground [fg[y, x]] on the
    background [bg[y, x]].  The cells are worked through row after row, and
    in a row column after column: the text backend is invoked, in this order,
    on the keys that are not cached yet. *)
Theorem render_image host nh sysfont self obs fgo bgo st :
  init host nh sysfont = Ok self →
  (∀ c color background, at_least 16 8 (sysfont c color background)) →
  frame_ok obs fgo bgo →
  accumulated self st →
  ∃ chars fg bg img,
    tty_chars obs = Some chars
    ∧ foreground_of self obs fgo = Ok fg
    ∧ background_of self obs bgo = Ok bg
    ∧ fst (render self obs fgo bgo st) = Ok img
    ∧ has_shape 384 640 img
    ∧ (∀ y x i j, (y < 24)%nat → (x < 80)%nat → (i < 16)%nat → (j < 8)%nat →
        ∃ v color background,
          getitem2 chars y x = Ok v ∧ getitem2 fg y x = Ok color
          ∧ getitem2 bg y x = Ok background
          ∧ pixel img (16 * y + i) (8 * x + j)
            = pixel (sysfont (represent_char (clip 0 255 v))
                             color background) i j)
    ∧ backend_calls (snd (render self obs fgo bgo st))
      = foldl draw_call (backend_calls st) (cell_keys chars fg bg).
Proof.
  intros Hinit Hfont ((chars & Hchars & Hcs) & Hfg & Hbg) Hacc.
  destruct (foreground_of_ok _ _ _ _ obs fgo Hinit Hfg) as (fg & Hfg' & Hfs).
  destruct (background_of_ok _ _ _ _ obs bgo Hinit Hbg) as (bg & Hbg' & Hbs).
  assert (Hsys : _font self = sysfont) by (by apply init_inv in Hinit as ->).
  pose proof (accumulated_sound _ _ Hacc) as Hst.
  destruct (render_spec self obs fgo bgo st chars fg bg)
    as (img & Himg & Hshape & Hpix & Hstore);
    [rewrite Hsys; exact Hfont | done..
    | by eapply has_shape_at_least | by eapply has_shape_at_least
    | by eapply has_shape_at_least |].
  exists chars, fg, bg, img. repeat (split; [done|]). split.
  - intros y x i j Hy Hx Hi Hj.
    destruct (Hpix y x i j Hy Hx Hi Hj)
      as (v & color & background & ? & ? & ? & Hp).
    exists v, color, background. repeat (split; [done|]).
    rewrite <- Hsys, (Nat.mul_comm 16 y), (Nat.mul_comm 8 x). exact Hp.
  - rewrite Hstore. by apply backend_calls_foldl.
Qed.

Lemma plain_frame_ok cursor :
  match cursor with
  | Some (x, y) => 0 ≤ x < 80 ∧ 0 ≤ y < 24
  | None => True
  end →
  frame_ok (plain_frame cursor) None None.
Proof.
  intros Hcur. split; [|split; [|split]].
  - eexists. split; [reflexivity|]. apply constant_grid_shape.
  - eexists. split; [reflexivity|]. apply constant_grid_shape.
  - exact I.
  - exact Hcur.
Qed.

Lemma render_image_witness :
  ∃ img,
    fst (render demo_renderer (plain_frame (Some (5, 3))) None None empty_store)
    = Ok img
    ∧ has_shape 384 640 img
    ∧ pixel img (16 * 3 + 2) (8 * 5 + 1) = Some (85, 85, 85)
    ∧ backend_calls
        (snd (render demo_renderer (plain_frame (Some (5, 3))) None None
                     empty_store))
      = [(32, (0, 0, 0), (0, 0, 0)); (32, (0, 0, 0), (85, 85, 85))].
Proof.
  destruct (render_image little nethack block_font demo_renderer
              (plain_frame (Some (5, 3))) None None empty_store)
    as (chars & fg & bg & img & Hchars & Hfg & Hbg & Himg & Hshape & Hpix
        & Hcalls);
    [apply demo_renderer_init | apply block_font_size
    | apply plain_frame_ok; lia | apply acc_empty |].
  exists img. split; [exact Himg|]. split; [exact Hshape|].
  injection Hchars as <-.
  vm_compute in Hfg. injection Hfg as <-.
  vm_compute in Hbg. injection Hbg as <-.
  split.
  - destruct (Hpix 3%nat 5%nat 2%nat 1%nat)
      as (v & color & background & Hv & Hc & Hb & ->); [lia..|].
    vm_compute in Hv. injection Hv as <-.
    vm_compute in Hc. injection Hc as <-.
    vm_compute in Hb. injection Hb as <-.
    reflexivity.
  - rewrite Hcalls. by vm_compute.
Defined.

(** ** Grids of other shapes *)

Lemma getitem2_cases {A} (a : list (list A)) y x :
  is_ok (getitem2 a y x) ∨ getitem2 a y x = Raise IndexError.
Proof.
  unfold getitem2. destruct (a !! y) as [r|]; [|by right].
  destruct (r !! x); [left; by eexists | by right].
Qed.

Lemma rmapM_cases {A B} (f : A → result B) (l : list A) e :
  (∀ x, x ∈ l → is_ok (f x) ∨ f x = Raise e) →
  is_ok (rmapM f l) ∨ rmapM f l = Raise e.
Proof.
  induction l as [|x l IH]; intros Hf; simpl; [left; by eexists|].
  destruct (Hf x) as [[y ->]| ->]; [by left| |by right].
  destruct IH as [[ys ->]| ->]; [|left; by eexists|by right].
  intros z Hz. apply Hf. by right.
Qed.

Lemma rmapM_raises {A B} (f : A → result B) (l : list A) e x :
  (∀ z, z ∈ l → is_ok (f z) ∨ f z = Raise e) →
  x ∈ l → f x = Raise e → rmapM f l = Raise e.
Proof.
  induction l as [|a l IH]; intros Hf Hx Hfx; [by inversion Hx|].
  simpl. apply elem_of_cons in Hx as [->|Hx]; [by rewrite Hfx|].
  destruct (Hf a) as [[b ->]| ->]; [by left| |done].
  rewrite IH; [done| |done..].
  intros z Hz. apply Hf. by right.
Qed.

Section missing_cells.
Variable self : ImageRenderer.
Variables (a : grid) (fg bg : image).
Hypothesis font_size : ∀ c color background,
  at_least 16 8 (_font self c color background).

Lemma tile_at_cases x y :
  (∃ key, tile_at self (np_clip a 0 255) fg bg x y = Ok (tile_of self key))
  ∨ (tile_at self (np_clip a 0 255) fg bg x y = Raise IndexError).
Proof.
  unfold tile_at. rewrite getitem2_np_clip.
  destruct (getitem2_cases a y x) as [[v ->]| ->]; [|by right].
  cbn [mbind result_bind rbind mret result_ret].
  rewrite chr_represent_char. cbn [rbind].
  destruct (getitem2_cases fg y x) as [[color ->]| ->]; [|by right].
  cbn [rbind].
  destruct (getitem2_cases bg y x) as [[background ->]| ->]; [|by right].
  left. by eexists.
Qed.

Lemma tile_at_raises x y :
  getitem2 a y x = Raise IndexError ∨ getitem2 fg y x = Raise IndexError
  ∨ getitem2 bg y x = Raise IndexError →
  tile_at self (np_clip a 0 255) fg bg x y = Raise IndexError.
Proof.
  intros Hmiss.
  destruct (tile_at_cases x y) as [[key Hkey]|]; [|done].
  exfalso. revert Hkey. unfold tile_at. rewrite getitem2_np_clip.
  destruct Hmiss as [-> | [Hm|Hm]]; [done|..].
  - destruct (getitem2 a y x); [|done].
    cbn [mbind result_bind rbind mret result_ret].
    rewrite chr_represent_char. cbn [rbind]. by rewrite Hm.
  - destruct (getitem2 a y x); [|done].
    cbn [mbind result_bind rbind mret result_ret].
    rewrite chr_represent_char. cbn [rbind].
    destruct (getitem2 fg y x); [|done]. cbn [rbind]. by rewrite Hm.
Qed.

Lemma row_cases y : is_ok (row_uncached self (np_clip a 0 255) fg bg y) ∨ row_uncached self (np_clip a 0 255) fg bg y = Raise IndexError.
Proof.
  unfold row_uncached.
  destruct (rmapM_cases (λ x, tile_at self (np_clip a 0 255) fg bg x y)
              (seq 0 80) IndexError) as [[tiles Htiles]| ->]; [| |by right].
  { intros x _. destruct (tile_at_cases x y) as [[key ->]|]; [left|by right].
    by eexists. }
  rewrite Htiles. cbn [mbind result_bind rbind]. left.
  destruct (hstack_spec 16 8 tiles) as (img & -> & _); [| |by eexists].
  - apply rmapM_length in Htiles. rewrite length_seq in Htiles.
    by destruct tiles.
  - apply Forall_lookup_2. intros x t Ht.
    pose proof (lookup_lt_Some _ _ _ Ht) as Hx.
    rewrite (rmapM_length _ _ _ Htiles), length_seq in Hx.
    destruct (rmapM_lookup _ _ _ x x Htiles) as (t' & Ht' & Hlook);
      [by rewrite lookup_seq_lt|].
    rewrite Ht in Hlook. injection Hlook as <-.
    destruct (tile_at_cases x y) as [[[[c color] background] Hkey]|Hkey];
      rewrite Hkey in Ht'; [|done].
    injection Ht' as <-. apply crop_16_8_shape, font_size.
Qed.

Lemma compose_uncached_raises x y :
  (y < 24)%nat → (x < 80)%nat →
  getitem2 a y x = Raise IndexError ∨ getitem2 fg y x = Raise IndexError
  ∨ getitem2 bg y x = Raise IndexError →
  compose_uncached self (np_clip a 0 255) fg bg = Raise IndexError.
Proof.
  intros Hy Hx Hmiss.
  unfold compose_uncached.
  rewrite (rmapM_raises (row_uncached self (np_clip a 0 255) fg bg)
             (seq 0 24) IndexError y); [done| | |].
  - intros z _. apply row_cases.
  - apply elem_of_seq. lia.
  - unfold row_uncached.
    rewrite (rmapM_raises _ (seq 0 80) IndexError x); [done| | |].
    + intros z _. destruct (tile_at_cases z y) as [[key ->]|];
        [left; by eexists|by right].
    + apply elem_of_seq. lia.
    + by apply tile_at_raises.
Qed.
End missing_cells.

(** A grid with fewer than 24 rows or than 80 columns lacks a cell. *)
Lemma small_grid_missing_cell {A} h w (a : list (list A)) :
  has_shape h w a → (h < 24 ∨ w < 80)%nat →
  ∃ y x, (y < 24)%nat ∧ (x < 80)%nat ∧ getitem2 a y x = Raise IndexError.
Proof.
  intros Hshape [Hh|Hw].
  - exists h, 0%nat. split; [done|]. split; [lia|].
    apply getitem2_raises_rows. destruct Hshape as [-> _]. lia.
  - exists 0%nat, w. split; [lia|]. split; [done|].
    by eapply getitem2_raises_cols.
Qed.

Lemma getitem2_crop_24_80 (a : grid) y x :
  (y < 24)%nat → (x < 80)%nat → getitem2 (crop_24_80 a) y x = getitem2 a y x.
Proof.
  intros Hy Hx. unfold getitem2, crop_24_80.
  rewrite list_lookup_fmap, lookup_take_lt by done.
  destruct (a !! y) as [r|]; [|done]. simpl.
  by rewrite lookup_take_lt.
Qed.

Lemma smapM_ext {A B} (f g : A → M B) (l : list A) :
  (∀ x st, x ∈ l → f x st = g x st) → ∀ st, smapM f l st = smapM g l st.
Proof.
  induction l as [|x l IH]; intros Hfg st; [done|].
  cbn [smapM]. rewrite !bind_run, (Hfg x st) by left.
  destruct (g x st) as [[y|e] st']; [|done].
  rewrite !bind_run, IH; [done|].
  intros z st'' Hz. apply Hfg. by right.
Qed.

Lemma compose_tiles_ext self (chars chars' : grid) (fg fg' bg : image) st :
  (∀ y x, (y < 24)%nat → (x < 80)%nat →
          getitem2 chars y x = getitem2 chars' y x
          ∧ getitem2 fg y x = getitem2 fg' y x) →
  compose_tiles self chars fg bg st = compose_tiles self chars' fg' bg st.
Proof.
  intros Hcells. unfold compose_tiles. rewrite !bind_run.
  rewrite (smapM_ext _
    (λ y, tiles ← smapM (λ x, _render_pos self chars' fg' bg x y) (seq 0 80);
          lift (hstack tiles))); [done|].
  intros y st' Hy. apply elem_of_seq in Hy. rewrite !bind_run.
  rewrite (smapM_ext _ (λ x, _render_pos self chars' fg' bg x y)); [done|].
  intros x st'' Hx. apply elem_of_seq in Hx.
  destruct (Hcells y x) as [Hc Hf]; [lia..|].
  unfold _render_pos. by rewrite Hc, Hf.
Qed.

Lemma foreground_of_truncate_frame host nh sysfont self obs fgo :
  init host nh sysfont = Ok self →
  match foreground_of self obs fgo,
        foreground_of self (truncate_frame obs) fgo with
  | Ok fg, Ok fg' =>
      ∀ y x, (y < 24)%nat → (x < 80)%nat → getitem2 fg y x = getitem2 fg' y x
  | Raise e, Raise e' => e = e'
  | _, _ => False
  end.
Proof.
  intros -> %init_inv. destruct fgo as [f|]; cbn [foreground_of]; [done|].
  cbn [truncate_frame tty_colors _colors_map].
  destruct (tty_colors obs) as [colors|]; [|done].
  cbn [fmap option_fmap option_map obs_get mbind result_bind rbind].
  rewrite !take_table_np_clip by (by rewrite ?palette_length).
  intros y x Hy Hx. by rewrite !getitem2_fmap, getitem2_crop_24_80.
Qed.

Lemma render_truncate_frame host nh sysfont self obs fgo bgo st :
  init host nh sysfont = Ok self →
  render self obs fgo bgo st = render self (truncate_frame obs) fgo bgo st.
Proof.
  intros Hinit. rewrite !render_run.
  pose proof (foreground_of_truncate_frame _ _ _ _ obs fgo Hinit) as Hfg.
  change (background_of self (truncate_frame obs) bgo)
    with (background_of self obs bgo).
  change (tty_chars (truncate_frame obs)) with (crop_24_80 <$> tty_chars obs).
  destruct (foreground_of self obs fgo) as [fg|e],
           (foreground_of self (truncate_frame obs) fgo) as [fg'|e'];
    [|done|done|by subst].
  destruct (background_of self obs bgo) as [bg|]; [|reflexivity].
  destruct (tty_chars obs) as [a|]; [|reflexivity].
  cbn [fmap option_fmap option_map].
  apply compose_tiles_ext. intros y x Hy Hx. split; [|by apply Hfg].
  by rewrite !getitem2_np_clip, getitem2_crop_24_80.
Qed.

Lemma covers_at_least {A} h0 w0 (a : list (list A)) :
  covers h0 w0 a → at_least h0 w0 a.
Proof. intros (h & w & Hshape & Hh & Hw). by eapply has_shape_at_least. Qed.

Lemma covers_fmap {A B} (f : A → B) h0 w0 (a : list (list A)) :
  covers h0 w0 a → covers h0 w0 ((λ row : list A, f <$> row) <$> a).
Proof.
  intros (h & w & Hshape & Hh & Hw). exists h, w.
  split; [by apply has_shape_fmap|done].
Qed.

Lemma np_pad_shape (sp : grid) h w :
  has_shape h w sp → (0 < h)%nat →
  has_shape (1 + h + 2) (w + 1) (np_pad sp 1 2 0 1).
Proof.
  intros [Hh Hw] Hpos.
  assert (Hwidth : width sp = w).
  { destruct sp as [|r sp]; simpl in *; [lia|]. by inversion Hw. }
  unfold np_pad. rewrite Hwidth. split.
  - rewrite !length_app, length_fmap, !length_replicate. lia.
  - repeat apply Forall_app_2.
    + apply Forall_replicate. rewrite length_replicate. lia.
    + apply Forall_fmap. eapply Forall_impl; [exact Hw|].
      intros r Hr. simpl in *. rewrite length_app. simpl. lia.
    + apply Forall_replicate. rewrite length_replicate. lia.
Qed.

Lemma background_of_covers host nh sysfont self obs bgo :
  init host nh sysfont = Ok self →
  match bgo with
  | Some b => covers 24 80 b
  | None => sources_cover obs ∧ cursor_ok obs
  end →
  ∃ bg, background_of self obs bgo = Ok bg ∧ covers 24 80 bg.
Proof.
  intros Hinit Hbg. destruct bgo as [b|]; [by exists b|].
  destruct Hbg as [Hsrc Hcur].
  assert (∃ d, derived_background self obs = Ok d ∧ covers 24 80 d)
    as (d & Hd & (h & w & Hshape & Hh & Hw)).
  { pose proof Hinit as -> %init_inv.
    unfold derived_background, sources_cover in *.
    cbn [_specials_map _colors_map].
    destruct (specials obs) as [sp|].
    - rewrite take_table_np_clip by (by rewrite ?specials_table_length).
      eexists. split; [done|]. apply covers_fmap.
      destruct Hsrc as (h & w & Hshape & Hh & Hw).
      exists (1 + h + 2)%nat, (w + 1)%nat.
      split; [apply np_pad_shape; [done|lia]|lia].
    - destruct (tty_background obs) as [tb|].
      + rewrite take_table_np_clip by (by rewrite ?palette_length).
        eexists. split; [done|]. by apply covers_fmap.
      + eexists. split; [done|]. exists 24%nat, 80%nat.
        split; [apply np_zeros_shape|lia]. }
  rewrite background_of_derived, Hd. cbn [mbind result_bind rbind].
  unfold cursor_ok in Hcur.
  destruct (tty_cursor obs) as [[x y]|]; [|exists d; split; [done|by exists h, w]].
  apply init_inv in Hinit as ->. cbn [_bgcolors].
  unfold dict_get. destruct (bgcolors_of_cursor host) as [cursor ->].
  cbn [mbind result_bind rbind fst snd].
  destruct (setitem2_spec h w d y x cursor) as (bg & -> & ? & _);
    [done|lia..|].
  exists bg. split; [done|]. by exists h, w.
Qed.

Lemma foreground_of_covers host nh sysfont self obs fgo :
  init host nh sysfont = Ok self →
  match fgo with
  | Some f => covers 24 80 f
  | None => ∃ colors, tty_colors obs = Some colors ∧ covers 24 80 colors
  end →
  ∃ fg, foreground_of self obs fgo = Ok fg ∧ covers 24 80 fg.
Proof.
  intros -> %init_inv Hfg. destruct fgo as [f|]; [by exists f|].
  destruct Hfg as (colors & Hcolors & Hshape).
  unfold foreground_of. rewrite Hcolors. cbn [obs_get mbind result_bind rbind].
  cbn [_colors_map].
  rewrite take_table_np_clip by (by rewrite ?palette_length).
  eexists. split; [done|]. by apply covers_fmap.
Qed.

(** [render] accepts grids that are larger than declared. *)
Lemma render_covering_frame host nh sysfont self obs fgo bgo st :
  init host nh sysfont = Ok self →
  (∀ c color background, at_least 16 8 (sysfont c color background)) →
  cache_sound self st →
  frame_covers obs fgo bgo →
  ∃ img, fst (render self obs fgo bgo st) = Ok img ∧ has_shape 384 640 img.
Proof.
  intros Hinit Hfont Hst ((chars & Hchars & Hcs) & Hfg & Hbg).
  destruct (foreground_of_covers _ _ _ _ obs fgo Hinit Hfg) as (fg & Hfg' & Hfs).
  destruct (background_of_covers _ _ _ _ obs bgo Hinit Hbg) as (bg & Hbg' & Hbs).
  assert (Hsys : _font self = sysfont) by (by apply init_inv in Hinit as ->).
  destruct (render_spec self obs fgo bgo st chars fg bg)
    as (img & Himg & Hshape & _);
    [rewrite Hsys; exact Hfont | done..
    | by apply covers_at_least | by apply covers_at_least
    | by apply covers_at_least |].
  by exists img.
Qed.

(** [render] raises [IndexError] when a grid lacks one of the 24 x 80
    cells. *)
Lemma render_missing_cell self obs fgo bgo st (chars : grid) (fg bg : image) y x :
  (∀ c color background, at_least 16 8 (_font self c color background)) →
  cache_sound self st →
  tty_chars obs = Some chars →
  foreground_of self obs fgo = Ok fg →
  background_of self obs bgo = Ok bg →
  (y < 24)%nat → (x < 80)%nat →
  getitem2 chars y x = Raise IndexError ∨ getitem2 fg y x = Raise IndexError
  ∨ getitem2 bg y x = Raise IndexError →
  fst (render self obs fgo bgo st) = Raise IndexError.
Proof.
  intros Hfont Hst Hchars Hfg Hbg Hy Hx Hmiss.
  destruct (render_computes self obs fgo bgo st Hst) as [-> _].
  unfold render_uncached. rewrite Hfg, Hbg, Hchars.
  cbn [obs_get mbind result_bind rbind mret result_ret].
  by apply (compose_uncached_raises self chars fg bg Hfont x y).
Qed.

Lemma oversized_frame_covers : frame_covers oversized_frame None None.
Proof.
  split; [|split; [|split]].
  - eexists. split; [reflexivity|]. exists 25%nat, 81%nat.
    split; [apply constant_grid_shape|lia].
  - eexists. split; [reflexivity|]. exists 30%nat, 80%nat.
    split; [apply constant_grid_shape|lia].
  - exact I.
  - exact I.
Qed.

(** C5 (as amended): [render] does not check the shape of a grid.  It reads
    the 24 x 80 top-left cells of the character grid and of the colour-index
    grid and nothing else of them: it does exactly what it does on the grids
    cut to 24 x 80.  So a frame whose grids (characters, colour indices,
    [tty_background], overrides; 21 x 79 for [specials]) are larger than
    declared is accepted and gives a 384 x 640 image, and a grid of
    characters or of colour indices with fewer than 24 rows or than 80
    columns makes [render] raise numpy's [IndexError] (when the foreground
    and the background arrays themselves could be derived).  The text
    backend draws patches of at least 16 x 8 pixels. *)
Theorem render_grid_shapes host nh sysfont self obs fgo bgo st :
  init host nh sysfont = Ok self →
  (∀ c color background, at_least 16 8 (sysfont c color background)) →
  accumulated self st →
  render self obs fgo bgo st = render self (truncate_frame obs) fgo bgo st
  ∧ (frame_covers obs fgo bgo →
     ∃ img, fst (render self obs fgo bgo st) = Ok img ∧ has_shape 384 640 img)
  ∧ (∀ (chars : grid) h w (fg bg : image),
       tty_chars obs = Some chars → has_shape h w chars →
       (h < 24 ∨ w < 80)%nat →
       foreground_of self obs fgo = Ok fg →
       background_of self obs bgo = Ok bg →
       fst (render self obs fgo bgo st) = Raise IndexError)
  ∧ (∀ (colors chars : grid) h w (bg : image),
       fgo = None → tty_colors obs = Some colors → has_shape h w colors →
       (h < 24 ∨ w < 80)%nat →
       tty_chars obs = Some chars →
       background_of self obs bgo = Ok bg →
       fst (render self obs fgo bgo st) = Raise IndexError).
Proof.
  intros Hinit Hfont Hacc.
  pose proof (accumulated_sound _ _ Hacc) as Hst.
  assert (Hsys : _font self = sysfont) by (by apply init_inv in Hinit as ->).
  split; [by eapply render_truncate_frame|].
  split; [by eapply render_covering_frame|].
  split.
  - intros chars h w fg bg Hchars Hshape Hsmall Hfg Hbg.
    destruct (small_grid_missing_cell h w chars Hshape Hsmall)
      as (y & x & Hy & Hx & Hmiss).
    eapply (render_missing_cell self obs fgo bgo st chars fg bg y x); eauto.
    by rewrite Hsys.
  - intros colors chars h w bg -> Hcolors Hshape Hsmall Hchars Hbg.
    assert (Hfg : foreground_of self obs None
                  = Ok ((λ row : list Z,
                           lookup_clipped (_colors_map self) 15 <$> row)
                        <$> colors)).
    { unfold foreground_of. rewrite Hcolors.
      cbn [obs_get mbind result_bind rbind].
      apply take_table_np_clip; [lia|].
      apply init_inv in Hinit as ->. cbn [_colors_map].
      by rewrite palette_length. }
    destruct (small_grid_missing_cell h w _
                (has_shape_fmap (lookup_clipped (_colors_map self) 15)
                   h w colors Hshape) Hsmall)
      as (y & x & Hy & Hx & Hmiss).
    eapply (render_missing_cell self obs None bgo st chars _ bg y x); eauto.
    by rewrite Hsys.
Qed.

Lemma render_grid_shapes_witness :
  (∃ img,
     fst (render demo_renderer oversized_frame None None empty_store) = Ok img
     ∧ has_shape 384 640 img)
  ∧ render demo_renderer oversized_frame None None empty_store
    = render demo_renderer (truncate_frame oversized_frame) None None
             empty_store
  ∧ fst (render demo_renderer narrow_frame None None empty_store)
    = Raise IndexError.
Proof.
  destruct (render_grid_shapes little nethack block_font demo_renderer
              oversized_frame None None empty_store)
    as (Hcut & Hlarge & _);
    [apply demo_renderer_init | apply block_font_size | apply acc_empty |].
  destruct (render_grid_shapes little nethack block_font demo_renderer
              narrow_frame None None empty_store)
    as (_ & _ & Hsmall & _);
    [apply demo_renderer_init | apply block_font_size | apply acc_empty |].
  split; [exact (Hlarge oversized_frame_covers)|]. split; [exact Hcut|].
  eapply (Hsmall (constant_grid 24 79 65) 24%nat 79%nat);
    [reflexivity | apply constant_grid_shape | lia
    | vm_compute; reflexivity | vm_compute; reflexivity].
Defined.

(** C5 as stated fails on a grid of characters that is larger than 24 x 80:
    [render] returns an image, made of the 24 x 80 top-left cells. *)
Lemma render_oversized_counterexample :
  tty_chars oversized_frame = Some (constant_grid 25 81 65)
  ∧ has_shape 25 81 (constant_grid 25 81 65)
  ∧ ¬ has_shape 24 80 (constant_grid 25 81 65)
  ∧ (∃ img,
       fst (render demo_renderer oversized_frame None None empty_store) = Ok img
       ∧ has_shape 384 640 img)
  ∧ render demo_renderer oversized_frame None None empty_store
    = render demo_renderer (truncate_frame oversized_frame) None None
             empty_store.
Proof.
  split; [reflexivity|]. split; [apply constant_grid_shape|].
  split; [by intros [[=] _]|]. split.
  - apply (render_covering_frame little nethack block_font);
      [apply demo_renderer_init | apply block_font_size
      | apply empty_store_sound | apply oversized_frame_covers].
  - apply (render_truncate_frame little nethack block_font),
      demo_renderer_init.
Qed.

(** The exception is not raised before any work is done: the tiles of the
    cells before the missing one are drawn and cached. *)
Remark render_narrow_frame_draws_before_raising :
  let '(r, st) := render demo_renderer narrow_frame None None empty_store in
  r = Raise IndexError
  ∧ backend_calls st = [(65, (255, 255, 255), (0, 0, 0))].
Proof. by vm_compute. Qed.

Lemma special_background_table_witness :
  get_special_background nethack 9 = "corpse"
  ∧ getitem (_specials_map demo_renderer) 9 = Ok (0, 0, 170).
Proof.
  destruct (special_background_table little nethack block_font demo_renderer 9)
    as (_ & Huniq & _ & col & Hcol & Hget);
    [apply demo_renderer_init | lia |].
  split.
  - symmetry. apply Huniq. apply earliest_here. discriminate.
  - rewrite Hget. f_equal.
    vm_compute in Hcol. by injection Hcol.
Defined.

Lemma render_char_cached_render_pure_witness :
  let st := snd (render demo_renderer (plain_frame None) None None
                        empty_store) in
  fst (render demo_renderer (plain_frame (Some (5, 3))) None None st)
  = fst (render demo_renderer (plain_frame (Some (5, 3))) None None
                empty_store).
Proof.
  intros st.
  destruct (render_char_cached_render_pure demo_renderer 32 (0, 0, 0) (0, 0, 0)
              empty_store) as [_ Hpure].
  apply Hpure. apply acc_render, acc_empty.
Defined.

(** * Further properties *)

(** ** [hex_string_to_color_tuple]: values and errors *)

Lemma int16_digits_rejected acc s c :
  In c (list_ascii_of_string s) → hex_digit c = None →
  int16_digits acc s = Raise ValueError.
Proof.
  revert acc. induction s as [|a s IH]; intros acc Hin Hc; [done|].
  cbn [int16_digits]. destruct (hex_digit a) as [d|] eqn:Ha; [|done].
  apply IH; [|done]. destruct Hin as [->|Hin]; [congruence|done].
Qed.

Lemma int16_digits_nonneg acc s n :
  0 ≤ acc → int16_digits acc s = Ok n → acc ≤ n.
Proof.
  revert acc. induction s as [|a s IH]; intros acc Hacc; cbn [int16_digits].
  - intros [= <-]. lia.
  - destruct (hex_digit a) as [d|] eqn:Ha; [|done].
    pose proof (hex_digit_range _ _ Ha). intros Hn.
    apply IH in Hn; lia.
Qed.

Lemma int16_nonneg s n : int16 s = Ok n → 0 ≤ n.
Proof.
  destruct s as [|a s]; [done|]. unfold int16.
  by apply int16_digits_nonneg.
Qed.

(** X1: a string that is empty, or is its first character alone, or holds
    after its first character a character of code 33..126 (so not the space)
    that is neither a hexadecimal digit nor one of [+ - _ x X], makes
    [hex_string_to_color_tuple] raise [ValueError], on every host. *)
Theorem hex_string_to_color_tuple_value_error host s :
  str_tail s = ""%string
  ∨ (∃ c, In c (list_ascii_of_string (str_tail s)) ∧ rejected_char c) →
  hex_string_to_color_tuple host s = Raise ValueError.
Proof.
  intros Hbad. unfold hex_string_to_color_tuple.
  assert (int16 (str_tail s) = Raise ValueError) as ->; [|done].
  destruct Hbad as [->|(c & Hin & Hc & _)]; [done|].
  destruct (str_tail s) as [|a t]; [done|].
  unfold int16. by eapply int16_digits_rejected.
Qed.

Lemma hex_string_to_color_tuple_value_error_witness :
  hex_string_to_color_tuple little "#" = Raise ValueError
  ∧ hex_string_to_color_tuple little "##ff00ff" = Raise ValueError.
Proof.
  split.
  - apply hex_string_to_color_tuple_value_error. by left.
  - apply hex_string_to_color_tuple_value_error. right.
    exists "#"%char. split; [by left|].
    repeat split; try discriminate; vm_compute; discriminate.
Defined.

(** X2: when the digits after the first character denote the number [n],
    the result is made of the bytes of [n]: on a little-endian host the
    triple of the bytes 2, 1 and 0 (so that fewer than six digits are read as
    the low bytes, without the doubling of a short CSS colour), on a
    big-endian host the triple of the bytes 1, 2 and 3 (so that ["#RRGGBB"]
    gives [(GG, RR, 0)]).  Each component is a byte.  A number of more than
    32 bits raises [struct.error]. *)
Theorem hex_string_to_color_tuple_bytes s n :
  int16 (str_tail s) = Ok n →
  0 ≤ n
  ∧ (n < 2 ^ 32 →
     hex_string_to_color_tuple little s
     = Ok ((n / 2 ^ 16) mod 256, (n / 2 ^ 8) mod 256, n mod 256)
     ∧ hex_string_to_color_tuple big s
       = Ok ((n / 2 ^ 8) mod 256, (n / 2 ^ 16) mod 256, (n / 2 ^ 24) mod 256))
  ∧ (2 ^ 32 ≤ n →
     ∀ host, hex_string_to_color_tuple host s = Raise StructError).
Proof.
  intros Hn. pose proof (int16_nonneg _ _ Hn) as Hpos.
  split; [done|]. unfold hex_string_to_color_tuple. rewrite Hn.
  cbn [mbind result_bind rbind]. unfold pack_I. split.
  - intros Hlt.
    destruct (Z.leb_spec 0 n); [|lia]. destruct (Z.ltb_spec n (2 ^ 32)); [|lia].
    cbn [andb unpack_4B rbind mret result_ret].
    rewrite !byte_of_spec by lia.
    change (8 * 0) with 0. change (8 * 1) with 8. change (8 * 2) with 16.
    change (8 * 3) with 24. by rewrite Z.pow_0_r, Z.div_1_r.
  - intros Hge host.
    destruct (Z.ltb_spec n (2 ^ 32)); [lia|].
    by rewrite andb_false_r.
Qed.

Lemma hex_string_to_color_tuple_bytes_witness :
  hex_string_to_color_tuple little "#fff" = Ok (0, 15, 255)
  ∧ hex_string_to_color_tuple big "#aa7700" = Ok (119, 170, 0)
  ∧ hex_string_to_color_tuple little "#1ff00ff00" = Raise StructError.
Proof.
  split; [|split].
  - destruct (hex_string_to_color_tuple_bytes "#fff" 4095) as (_ & H & _);
      [reflexivity|].
    destruct H as [H _]; [lia|]. exact H.
  - destruct (hex_string_to_color_tuple_bytes "#aa7700" 0xaa7700) as (_ & H & _);
      [reflexivity|].
    destruct H as [_ H]; [lia|]. exact H.
  - destruct (hex_string_to_color_tuple_bytes "#1ff00ff00" 0x1ff00ff00)
      as (_ & _ & H); [reflexivity|].
    apply H. lia.
Defined.

(** ** [__init__] *)

Lemma bgcolors_of_dom host :
  ∀ name, is_Some (bgcolors_of host !! name) ↔ name ∈ situations.
Proof.
  intros name. unfold bgcolors_of.
  assert (∃ m, dict_comprehension (hex_string_to_color_tuple host)
                 BACKGROUND_COLORS ∅ = Ok m
               ∧ ∀ k, is_Some (m !! k) ↔ k ∈ situations)
    as (m & -> & H); [|apply H].
  unfold BACKGROUND_COLORS. cbn [dict_comprehension].
  repeat match goal with
  | |- context [hex_string_to_color_tuple host ?s] =>
      let H := fresh in
      assert (is_ok (hex_string_to_color_tuple host s)) as [? H]
        by (destruct host; vm_compute; eauto);
      rewrite H; clear H; cbn [mbind result_bind rbind]
  end.
  eexists. split; [reflexivity|]. intros k.
  let s := eval vm_compute in situations in change situations with s.
  rewrite !lookup_insert_is_Some, lookup_empty, !elem_of_cons, elem_of_nil.
  assert (Hnone : ¬ is_Some (@None (Z * Z * Z))) by (by intros [? ?]).
  split; [intros H; repeat (destruct H as [<-|[_ H]]; [tauto|]); tauto|].
  intros H;
    repeat (destruct H as [->|H];
            [repeat first [left; reflexivity | right; split; [discriminate|]]|]);
    destruct H.
Qed.

Lemma get_special_background_name nh s :
  get_special_background nh s ∈ situations
  ∧ get_special_background nh s ≠ "cursor"%string.
Proof.
  unfold get_special_background.
  repeat case_match; (split; [apply list_elem_of_In; cbn; tauto|done]).
Qed.

(** X3: [__init__] (its two pygame calls apart, whose result is the
    backend [sysfont]) never raises, on no host and for no values of the flag
    masks: every colour string of the two tables is converted, and every
    name that [get_special_background] returns is a key of the background
    colours.  The renderer it builds has a palette of 16 colours, the
    background colours of exactly the ten situations, and a table of 256
    entries, each of them the colour of a situation other than [cursor]. *)
Theorem init_succeeds host nh sysfont :
  ∃ self,
    init host nh sysfont = Ok self
    ∧ _font self = sysfont
    ∧ length (_colors_map self) = 16%nat
    ∧ length (_specials_map self) = 256%nat
    ∧ (∀ name, is_Some (_bgcolors self !! name) ↔ name ∈ situations)
    ∧ (∀ col, col ∈ _specials_map self →
         ∃ name, name ∈ situations ∧ name ≠ "cursor"%string
                 ∧ _bgcolors self !! name = Some col).
Proof.
  eexists. split; [apply init_ok|]. cbn [_font _colors_map _specials_map _bgcolors].
  split; [done|]. split; [apply palette_length|].
  split; [apply specials_table_length|]. split; [apply bgcolors_of_dom|].
  intros col Hcol. unfold specials_table in Hcol.
  apply list_elem_of_fmap in Hcol as (s & -> & _).
  destruct (get_special_background_name nh s) as [Hname Hne].
  exists (get_special_background nh s). split; [done|]. split; [done|].
  destruct (get_special_background_bgcolor host nh s) as [c Hc].
  by rewrite Hc.
Qed.

Lemma init_succeeds_witness :
  ∃ self, init big nethack block_font = Ok self
          ∧ is_Some (_bgcolors self !! "bwlava"%string)
          ∧ ¬ is_Some (_bgcolors self !! "lava"%string).
Proof.
  destruct (init_succeeds big nethack block_font)
    as (self & Hinit & _ & _ & _ & Hdom & _).
  exists self. split; [exact Hinit|]. split.
  - apply Hdom. apply list_elem_of_In. vm_compute. tauto.
  - intros H %Hdom. apply list_elem_of_In in H. vm_compute in H.
    repeat (destruct H as [H|H]; [discriminate H|]). exact H.
Defined.

(** ** [represent_char] *)

(** X4: on the codes 0..255, [represent_char] never returns 0 (the NUL
    character) nor the code of the backtick, its result is a code 1..255 on
    which [chr] does not raise, and representing twice is representing
    once. *)
Theorem represent_char_image (c : Z) :
  0 ≤ c ≤ 255 →
  1 ≤ represent_char c ≤ 255
  ∧ represent_char c ≠ ord "`"
  ∧ chr (represent_char c) = Ok (represent_char c)
  ∧ represent_char (represent_char c) = represent_char c.
Proof.
  intros Hc. pose proof (represent_char_range c Hc) as Hr.
  split; [done|].
  destruct (decide (c = 0)) as [->|H0];
    [vm_compute; repeat split; discriminate|].
  destruct (decide (c = ord "`")) as [->|H1];
    [vm_compute; repeat split; discriminate|].
  assert (Hid : represent_char c = c).
  { unfold represent_char.
    destruct (Z.eqb_spec c 0); [done|]. by destruct (Z.eqb_spec c (ord "`")). }
  rewrite !Hid. split; [done|]. split; [|done].
  unfold chr.
  destruct (Z.leb_spec 0 c); [|lia]. by destruct (Z.ltb_spec c 1114112); [|lia].
Qed.

Lemma represent_char_image_witness :
  represent_char 96 ≠ 96 ∧ represent_char (represent_char 96) = 48.
Proof.
  destruct (represent_char_image 96) as (_ & Hne & _ & Hidem); [lia|].
  split; [exact Hne|]. rewrite Hidem. reflexivity.
Defined.

(** ** Values outside their range *)

Lemma represent_char_idem c :
  represent_char (represent_char c) = represent_char c.
Proof.
  destruct (decide (c = 0)) as [->|H0]; [done|].
  destruct (decide (c = ord "`")) as [->|H1]; [done|].
  assert (Hid : represent_char c = c); [|by rewrite !Hid].
  unfold represent_char.
  destruct (Z.eqb_spec c 0); [done|]. by destruct (Z.eqb_spec c (ord "`")).
Qed.

Lemma clip_idem lo hi v : lo ≤ hi → clip lo hi (clip lo hi v) = clip lo hi v.
Proof. unfold clip. lia. Qed.

Lemma clip_fixed lo hi v : lo ≤ v ≤ hi → clip lo hi v = v.
Proof. unfold clip. lia. Qed.

Lemma np_clip_idem (a : grid) lo hi :
  lo ≤ hi → np_clip (np_clip a lo hi) lo hi = np_clip a lo hi.
Proof.
  intros Hlh. unfold np_clip. rewrite <- list_fmap_compose.
  apply list_fmap_ext. intros _ row _. simpl.
  rewrite <- list_fmap_compose.
  apply list_fmap_ext. intros _ v _. simpl. by apply clip_idem.
Qed.

Lemma width_np_clip (a : grid) lo hi : width (np_clip a lo hi) = width a.
Proof. destruct a as [|r a]; [done|]. simpl. by rewrite length_fmap. Qed.

Lemma np_clip_np_pad (a : grid) lo hi top bottom left right :
  lo ≤ 0 ≤ hi →
  np_clip (np_pad a top bottom left right) lo hi
  = np_pad (np_clip a lo hi) top bottom left right.
Proof.
  intros Hz. unfold np_pad. rewrite width_np_clip. unfold np_clip.
  rewrite !fmap_app, !fmap_replicate, <- !list_fmap_compose.
  rewrite (clip_fixed lo hi 0) by lia.
  do 2 f_equal. apply list_fmap_ext. intros _ row _. simpl.
  rewrite !fmap_app, !fmap_replicate. by rewrite (clip_fixed lo hi 0) by lia.
Qed.

Lemma compose_tiles_ext_chr self (chars chars' : grid) (fg bg : image) st :
  (∀ y x, (y < 24)%nat → (x < 80)%nat →
          (v ← getitem2 chars y x; chr (represent_char v))
          = (v ← getitem2 chars' y x; chr (represent_char v))) →
  compose_tiles self chars fg bg st = compose_tiles self chars' fg bg st.
Proof.
  intros Hcells. unfold compose_tiles. rewrite !bind_run.
  rewrite (smapM_ext _
    (λ y, tiles ← smapM (λ x, _render_pos self chars' fg bg x y) (seq 0 80);
          lift (hstack tiles))); [done|].
  intros y st' Hy. apply elem_of_seq in Hy. rewrite !bind_run.
  rewrite (smapM_ext _ (λ x, _render_pos self chars' fg bg x y)); [done|].
  intros x st'' Hx. apply elem_of_seq in Hx.
  unfold _render_pos. by rewrite Hcells by lia.
Qed.

(** X5: [render] clips every value into its range and represents the
    characters, so out-of-range values count as the nearest value of the
    range: on any observation it does exactly (in its result and in the
    cache) what it does on the observation whose characters are clipped to
    0..255 and represented, whose colour indices are clipped to 0..15 and
    whose specials are clipped to 0..255.  A cell of code 0 is drawn as a
    space and a backtick as the digit 0, from the same cached tile. *)
Theorem render_normal_frame self obs fgo bgo st :
  render self obs fgo bgo st = render self (normal_frame obs) fgo bgo st.
Proof.
  rewrite !render_run.
  assert (foreground_of self (normal_frame obs) fgo
          = foreground_of self obs fgo) as ->.
  { destruct fgo as [f|]; [done|]. unfold foreground_of, normal_frame.
    cbn [tty_colors]. destruct (tty_colors obs) as [colors|]; [|done].
    cbn [fmap option_fmap option_map obs_get mbind result_bind rbind].
    by rewrite np_clip_idem. }
  assert (background_of self (normal_frame obs) bgo
          = background_of self obs bgo) as ->.
  { destruct bgo as [b|]; [done|]. unfold background_of, normal_frame.
    cbn [specials tty_background tty_cursor].
    destruct (specials obs) as [sp|].
    - cbn [fmap option_fmap option_map].
      by rewrite <- np_clip_np_pad, np_clip_idem by lia.
    - destruct (tty_background obs) as [tb|]; [|done].
      cbn [fmap option_fmap option_map]. by rewrite np_clip_idem. }
  destruct (foreground_of self obs fgo) as [fg|]; [|done].
  destruct (background_of self obs bgo) as [bg|]; [|done].
  unfold normal_frame. cbn [tty_chars].
  destruct (tty_chars obs) as [a|]; [|done].
  cbn [fmap option_fmap option_map].
  apply compose_tiles_ext_chr. intros y x _ _.
  rewrite !getitem2_np_clip, getitem2_fmap.
  destruct (getitem2 a y x) as [v|]; [|done].
  cbn [mbind result_bind rbind mret result_ret].
  pose proof (represent_char_range (clip 0 255 v)
                (clip_range 0 255 v ltac:(lia))).
  rewrite (clip_fixed 0 255 (represent_char (clip 0 255 v))) by lia.
  by rewrite represent_char_idem.
Qed.

(** ** The palette *)

(** X6: without a foreground override, the foreground of a cell is the
    colour of the palette at the colour index of the cell, clipped to 0..15:
    the array has the shape of [tty_colors] and no index makes the lookup
    raise.  An index below 0 counts as 0 and an index above 15 as 15: there
    is no wrap-around. *)
Theorem foreground_palette host nh sysfont self obs (colors : grid) :
  init host nh sysfont = Ok self →
  tty_colors obs = Some colors →
  ∃ fg, foreground_of self obs None = Ok fg
        ∧ length fg = length colors
        ∧ (∀ y x, getitem2 fg y x
                  = (v ← getitem2 colors y x;
                     getitem (_colors_map self) (clip 0 15 v)))
        ∧ (∀ y x v, getitem2 colors y x = Ok v →
             is_ok (getitem2 fg y x)
             ∧ (v ≤ 0 → getitem2 fg y x = getitem (_colors_map self) 0)
             ∧ (15 ≤ v → getitem2 fg y x = getitem (_colors_map self) 15)).
Proof.
  intros -> %init_inv Hcolors. unfold foreground_of. rewrite Hcolors.
  cbn [obs_get mbind result_bind rbind _colors_map].
  rewrite take_table_np_clip by (by rewrite ?palette_length).
  assert (Hcells : ∀ y x v, getitem2 colors y x = Ok v →
            getitem2 ((λ row : list Z, lookup_clipped (palette host) 15 <$> row)
                      <$> colors) y x
            = getitem (palette host) (clip 0 15 v)).
  { intros y x v Hv. rewrite getitem2_fmap, Hv.
    cbn [mbind result_bind rbind mret result_ret].
    by rewrite getitem_clip by (by rewrite ?palette_length). }
  eexists. split; [done|]. split; [by rewrite length_fmap|]. split.
  - intros y x. destruct (getitem2 colors y x) as [v|] eqn:Hv.
    + by rewrite (Hcells y x v Hv).
    + by rewrite getitem2_fmap, Hv.
  - intros y x v Hv. rewrite (Hcells y x v Hv). split; [|split].
    + rewrite getitem_clip by (by rewrite ?palette_length). by eexists.
    + intros Hi. by replace (clip 0 15 v) with 0 by (unfold clip; lia).
    + intros Hi. by replace (clip 0 15 v) with 15 by (unfold clip; lia).
Qed.

Lemma foreground_palette_witness :
  ∃ fg, foreground_of demo_renderer (indexed_frame None) None = Ok fg
        ∧ getitem2 fg 5 5 = Ok (255, 255, 255).
Proof.
  destruct (foreground_palette little nethack block_font demo_renderer
              (indexed_frame None) (constant_grid 24 80 20))
    as (fg & Hfg & _ & _ & Hends);
    [apply demo_renderer_init | reflexivity |].
  exists fg. split; [exact Hfg|].
  destruct (Hends 5%nat 5%nat 20) as (_ & _ & H); [reflexivity|].
  rewrite H by lia. reflexivity.
Defined.

(** X7: with [tty_background] and without [specials] and background
    override, the background of a cell is the colour of the palette at the
    background index of the cell, clipped to 0..15, except for the cell of
    the cursor, which has the colour of the situation [cursor]. *)
Theorem tty_background_palette host nh sysfont self obs (tb : grid) :
  init host nh sysfont = Ok self →
  specials obs = None → tty_background obs = Some tb →
  has_shape 24 80 tb → cursor_ok obs →
  ∃ bg, background_of self obs None = Ok bg
        ∧ has_shape 24 80 bg
        ∧ (∀ r c, tty_cursor obs ≠ Some (Z.of_nat c, Z.of_nat r) →
                  getitem2 bg r c
                  = (v ← getitem2 tb r c;
                     getitem (_colors_map self) (clip 0 15 v)))
        ∧ (∀ x y, tty_cursor obs = Some (x, y) →
                  getitem2 bg (Z.to_nat y) (Z.to_nat x)
                  = dict_get (_bgcolors self) "cursor").
Proof.
  intros -> %init_inv Hsp Htb Hshape Hcur.
  set (derived := (λ row : list Z, lookup_clipped (palette host) 15 <$> row)
                  <$> tb).
  assert (Hcells : ∀ r c, getitem2 derived r c
            = (v ← getitem2 tb r c; getitem (palette host) (clip 0 15 v))).
  { intros r c. unfold derived. rewrite getitem2_fmap.
    destruct (getitem2 tb r c) as [v|]; [|done].
    cbn [mbind result_bind rbind mret result_ret].
    by rewrite getitem_clip by (by rewrite ?palette_length). }
  assert (Hdshape : has_shape 24 80 derived) by (by apply has_shape_fmap).
  rewrite background_of_derived. unfold derived_background.
  rewrite Hsp, Htb. cbn [_colors_map _bgcolors].
  rewrite take_table_np_clip by (by rewrite ?palette_length).
  fold derived. cbn [mbind result_bind rbind].
  unfold cursor_ok in Hcur. destruct (tty_cursor obs) as [[x y]|].
  - destruct (bgcolors_of_cursor host) as [cursor Hcursor].
    unfold dict_get. rewrite Hcursor. cbn [mbind result_bind rbind fst snd].
    destruct (setitem2_spec 24 80 derived y x cursor)
      as (bg & -> & Hbshape & Hat & Hother); [done|lia..|].
    exists bg. split; [done|]. split; [done|]. split.
    + intros r c Hne. rewrite Hother; [apply Hcells|].
      intros [= -> ->]. apply Hne. f_equal. f_equal; lia.
    + by intros ? ? [= <- <-].
  - exists derived. split; [done|]. split; [done|]. split; [|done].
    intros r c _. apply Hcells.
Qed.

Lemma indexed_grid_shape :
  has_shape 24 80 ((λ r, (λ c, r + c - 3) <$> range 80) <$> range 24).
Proof.
  unfold range. split; [by rewrite !length_fmap, length_seq|].
  apply Forall_fmap, Forall_forall. intros r _. unfold compose.
  by rewrite !length_fmap, length_seq.
Qed.

Lemma tty_background_palette_witness :
  ∃ bg, background_of demo_renderer (indexed_frame (Some (5, 3))) None = Ok bg
        ∧ getitem2 bg 3 5 = Ok (85, 85, 85)
        ∧ getitem2 bg 3 4 = Ok (0, 0, 119)
        ∧ getitem2 bg 23 79 = Ok (255, 255, 255).
Proof.
  destruct (tty_background_palette little nethack block_font demo_renderer
              (indexed_frame (Some (5, 3)))
              ((λ r, (λ c, r + c - 3) <$> range 80) <$> range 24))
    as (bg & Hbg & _ & Hcells & Hat);
    [apply demo_renderer_init | reflexivity | reflexivity
    | apply indexed_grid_shape
    | vm_compute; repeat split; discriminate |].
  exists bg. split; [exact Hbg|]. split; [|split].
  - etrans; [exact (Hat 5 3 eq_refl)|reflexivity].
  - rewrite (Hcells 3%nat 4%nat); [reflexivity|discriminate].
  - rewrite (Hcells 23%nat 79%nat); [reflexivity|discriminate].
Defined.

(** ** Missing keys *)

(** X8: [render] raises [KeyError], and leaves the cache as it is, when
    [tty_colors] is missing and no foreground override is given (whatever
    else the observation holds), and when [tty_chars] is missing (unless
    deriving the foreground or the background raised before). *)
Theorem render_missing_keys self obs fgo bgo st :
  (fgo = None → tty_colors obs = None →
   render self obs fgo bgo st = (Raise KeyError, st))
  ∧ (tty_chars obs = None →
     ∃ e, render self obs fgo bgo st = (Raise e, st)
          ∧ (is_ok (foreground_of self obs fgo) →
             is_ok (background_of self obs bgo) → e = KeyError)).
Proof.
  rewrite render_run. split.
  - intros -> Hcolors. unfold foreground_of. by rewrite Hcolors.
  - intros ->.
    destruct (foreground_of self obs fgo) as [fg|e].
    + destruct (background_of self obs bgo) as [bg|e].
      * by exists KeyError.
      * exists e. split; [done|]. by intros _ [? ?].
    + exists e. split; [done|]. by intros [? ?].
Qed.

Lemma render_missing_keys_witness :
  render demo_renderer
    {| tty_chars := Some (constant_grid 24 80 65); tty_colors := None;
       specials := None; tty_background := None; tty_cursor := None |}
    None None empty_store
  = (Raise KeyError, empty_store)
  ∧ render demo_renderer
      {| tty_chars := None; tty_colors := Some (constant_grid 24 80 7);
         specials := None; tty_background := None; tty_cursor := None |}
      None None empty_store
    = (Raise KeyError, empty_store).
Proof.
  split.
  - by apply render_missing_keys.
  - destruct (render_missing_keys demo_renderer
      {| tty_chars := None; tty_colors := Some (constant_grid 24 80 7);
         specials := None; tty_background := None; tty_cursor := None |}
      None None empty_store) as [_ H].
    destruct H as (e & -> & He); [reflexivity|].
    rewrite He; [reflexivity | eexists | eexists]; vm_compute; reflexivity.
Defined.

(** X9: when a foreground override is given, [tty_colors] is not read: the
    override is the foreground array as it is and [render] does the same (in
    its result and in the cache) whatever [tty_colors] holds, or without
    it. *)
Theorem foreground_override_ignores_tty_colors self chars (colors colors' :
    option grid) sp tb cursor (foreground_colors : image) bgo st :
  let obs c := {| tty_chars := chars; tty_colors := c; specials := sp;
                  tty_background := tb; tty_cursor := cursor |} in
  foreground_of self (obs colors) (Some foreground_colors)
  = Ok foreground_colors
  ∧ render self (obs colors) (Some foreground_colors) bgo st
    = render self (obs colors') (Some foreground_colors) bgo st.
Proof. intros obs. split; [reflexivity|]. by rewrite !render_run. Qed.

(** ** The position of the cursor *)

Lemma py_index_outside n i :
  i < - Z.of_nat n ∨ Z.of_nat n ≤ i → py_index n i = Raise IndexError.
Proof.
  intros Hi. unfold py_index.
  destruct (Z.leb_spec 0 i), (Z.ltb_spec i (Z.of_nat n)),
    (Z.leb_spec (- Z.of_nat n) i), (Z.ltb_spec i 0); done || lia.
Qed.

Lemma py_index_inside n i :
  - Z.of_nat n ≤ i < Z.of_nat n → is_ok (py_index n i).
Proof.
  intros Hi. unfold py_index.
  destruct (Z.leb_spec 0 i), (Z.ltb_spec i (Z.of_nat n)),
    (Z.leb_spec (- Z.of_nat n) i), (Z.ltb_spec i 0);
    try lia; by eexists.
Qed.

Lemma py_index_mod n i :
  - Z.of_nat n ≤ i < Z.of_nat n →
  py_index n i = py_index n (i mod Z.of_nat n).
Proof.
  intros Hi. destruct (decide (0 ≤ i)).
  - by rewrite Z.mod_small by lia.
  - replace (i mod Z.of_nat n) with (Z.of_nat n + i).
    + unfold py_index.
      destruct (Z.leb_spec 0 i); [lia|].
      destruct (Z.leb_spec (- Z.of_nat n) i); [|lia].
      destruct (Z.ltb_spec i 0); [|lia].
      destruct (Z.leb_spec 0 (Z.of_nat n + i)); [|lia].
      destruct (Z.ltb_spec (Z.of_nat n + i) (Z.of_nat n)); [|lia].
      done.
    + symmetry. rewrite <- (Z.mod_add i 1) by lia.
      rewrite Z.mod_small; lia.
Qed.

(** X10: the cursor indexes the background array as numpy does.  A
    coordinate outside [-80, 80) (column) or [-24, 24) (row) makes the
    derivation of the background raise [IndexError], and [render] with it,
    when the foreground could be derived, before a tile is drawn; a negative
    coordinate inside counts from the right or from the bottom. *)
Theorem cursor_index host nh sysfont self chars colors sp tb (x y : Z) fgo st :
  let obs c := {| tty_chars := chars; tty_colors := colors; specials := sp;
                  tty_background := tb; tty_cursor := c |} in
  init host nh sysfont = Ok self →
  background_sources_ok (obs None) →
  (x < -80 ∨ 80 ≤ x ∨ y < -24 ∨ 24 ≤ y →
   background_of self (obs (Some (x, y))) None = Raise IndexError
   ∧ (is_ok (foreground_of self (obs (Some (x, y))) fgo) →
      render self (obs (Some (x, y))) fgo None st = (Raise IndexError, st)))
  ∧ (-80 ≤ x < 80 → -24 ≤ y < 24 →
     background_of self (obs (Some (x, y))) None
     = background_of self (obs (Some (x mod 80, y mod 24))) None).
Proof.
  intros obs Hinit Hsrc.
  destruct (derived_background_ok _ _ _ _ (obs None) Hinit Hsrc)
    as (d & Hd & Hh & Hw).
  assert (Hwidth : width d = 80%nat).
  { destruct d as [|r d]; simpl in *; [lia|]. by inversion Hw. }
  assert (Hbg : ∀ c, background_of self (obs (Some c)) None
                     = (cursor ← dict_get (_bgcolors self) "cursor";
                        setitem2 d (snd c) (fst c) cursor)).
  { intros c. rewrite background_of_derived.
    change (derived_background self (obs (Some c)))
      with (derived_background self (obs None)).
    by rewrite Hd. }
  pose proof Hinit as Hself %init_inv.
  assert (∃ cursor, dict_get (_bgcolors self) "cursor" = Ok cursor)
    as [cursor Hcursor].
  { rewrite Hself. cbn [_bgcolors]. unfold dict_get.
    destruct (bgcolors_of_cursor host) as [cursor ->]. by eexists. }
  split.
  - intros Hout.
    assert (Hraise : background_of self (obs (Some (x, y))) None
                     = Raise IndexError).
    { rewrite Hbg, Hcursor. cbn [mbind result_bind rbind fst snd].
      unfold setitem2. rewrite Hh, Hwidth.
      destruct (decide (y < -24 ∨ 24 ≤ y)) as [Hy|Hy].
      - by rewrite (py_index_outside 24 y) by lia.
      - rewrite (py_index_outside 80 x) by lia.
        by destruct (py_index_inside 24 y) as [r ->]; [lia|]. }
    split; [done|]. intros [fg Hfg].
    by rewrite render_run, Hfg, Hraise.
  - intros Hx Hy. rewrite !Hbg, Hcursor.
    cbn [mbind result_bind rbind fst snd]. unfold setitem2.
    rewrite Hh, Hwidth.
    pose proof (py_index_mod 24 y) as Hy'. pose proof (py_index_mod 80 x) as Hx'.
    change (Z.of_nat 24) with 24 in Hy'. change (Z.of_nat 80) with 80 in Hx'.
    by rewrite <- Hy', <- Hx' by lia.
Qed.

Lemma cursor_index_witness :
  background_of demo_renderer (plain_frame (Some (80, 3))) None
  = Raise IndexError
  ∧ background_of demo_renderer (plain_frame (Some (-1, -24))) None
    = background_of demo_renderer (plain_frame (Some (79, 0))) None.
Proof.
  destruct (cursor_index little nethack block_font demo_renderer
              (Some (constant_grid 24 80 0)) (Some (constant_grid 24 80 0))
              None None 80 3 None empty_store) as [Hout _];
    [apply demo_renderer_init | exact I |].
  destruct (cursor_index little nethack block_font demo_renderer
              (Some (constant_grid 24 80 0)) (Some (constant_grid 24 80 0))
              None None (-1) (-24) None empty_store) as [_ Hwrap];
    [apply demo_renderer_init | exact I |].
  split.
  - apply Hout. lia.
  - apply Hwrap; lia.
Defined.

(** ** The growth of the cache *)

Lemma _render_char_store self c color background st :
  snd (_render_char self c color background st)
  = draw_tile self st (c, color, background).
Proof.
  rewrite _render_char_run. unfold draw_tile.
  by destruct (TILE_CACHE st !! (c, color, background)).
Qed.

Ltac no_draw :=
  exists []; split; [simpl; lia|]; split; [by constructor|reflexivity].

Lemma only_draws_lift {A} self P (r : result A) : only_draws self P 0 (lift r).
Proof. intros st. no_draw. Qed.

Lemma only_draws_le {A} self P n n' (m : M A) :
  (n ≤ n')%nat → only_draws self P n m → only_draws self P n' m.
Proof.
  intros Hle Hm st. destruct (Hm st) as (keys & Hlen & HP & Hst).
  exists keys. split; [lia|done].
Qed.

Lemma only_draws_bind {A B} self P n n' (m : M A) (k : A → M B) :
  only_draws self P n m → (∀ a, only_draws self P n' (k a)) →
  only_draws self P (n + n') (m ≫= k).
Proof.
  intros Hm Hk st. destruct (Hm st) as (keys & Hlen & HP & Hst).
  rewrite bind_run. destruct (m st) as [[a|e] st1]; simpl in Hst; subst st1.
  - destruct (Hk a (foldl (draw_tile self) st keys))
      as (keys' & Hlen' & HP' & Hst').
    exists (keys ++ keys'). rewrite length_app, foldl_app.
    split; [lia|]. split; [by apply Forall_app|done].
  - exists keys. split; [lia|done].
Qed.

Lemma only_draws_smapM {A B} self P n (f : A → M B) (l : list A) :
  (∀ x, x ∈ l → only_draws self P n (f x)) →
  only_draws self P (length l * n) (smapM f l).
Proof.
  induction l as [|x l IH]; intros Hf; [intros st; no_draw|].
  cbn [smapM length]. replace (S (length l) * n)%nat
    with (n + (length l * n + 0))%nat by lia.
  apply only_draws_bind; [apply Hf; by left|]. intros y.
  apply only_draws_bind.
  - apply IH. intros z Hz. apply Hf. by right.
  - intros ys st. no_draw.
Qed.

Lemma only_draws_render_char self (P : tile_key → Prop) c color background :
  P (c, color, background) →
  only_draws self P 1 (_render_char self c color background).
Proof.
  intros HP st. exists [(c, color, background)].
  split; [done|]. split; [by constructor|]. apply _render_char_store.
Qed.

Lemma getitem2_elem {A} (P : A → Prop) (a : list (list A)) y x v :
  Forall (Forall P) a → getitem2 a y x = Ok v → P v.
Proof.
  intros Ha. unfold getitem2.
  destruct (a !! y) as [r|] eqn:Hr; [|done].
  destruct (r !! x) as [w|] eqn:Hw; [|done]. intros [= <-].
  eapply Forall_lookup_1; [|exact Hw]. by eapply Forall_lookup_1.
Qed.

Lemma only_draws_render_pos self (chars : grid) fg bg x y :
  bytes_grid chars →
  only_draws self key_ok 1 (_render_pos self chars fg bg x y).
Proof.
  intros Hchars st. unfold _render_pos. cbv [mbind M_bind lift].
  destruct (getitem2 chars y x) as [v|e] eqn:Hv; cbn [result_bind rbind].
  2: { no_draw. }
  pose proof (getitem2_elem _ _ _ _ _ Hchars Hv) as Hrange. simpl in Hrange.
  pose proof (represent_char_range v Hrange) as Hr.
  assert (Hne : represent_char v ≠ ord "`").
  { unfold represent_char.
    destruct (Z.eqb_spec v 0); [done|].
    by destruct (Z.eqb_spec v (ord "`")). }
  assert (chr (represent_char v) = Ok (represent_char v)) as ->.
  { unfold chr. destruct (Z.leb_spec 0 (represent_char v)); [|lia].
    by destruct (Z.ltb_spec (represent_char v) 1114112); [|lia]. }
  destruct (getitem2 fg y x) as [color|]; [|no_draw].
  destruct (getitem2 bg y x) as [background|]; [|no_draw].
  by apply only_draws_render_char.
Qed.

Lemma np_clip_bytes (a : grid) : bytes_grid (np_clip a 0 255).
Proof.
  unfold bytes_grid, np_clip. apply Forall_fmap, Forall_forall. intros row _.
  apply Forall_fmap, Forall_forall. intros v _. simpl.
  apply clip_range. lia.
Qed.

Lemma only_draws_compose_tiles self (chars : grid) fg bg :
  bytes_grid chars →
  only_draws self key_ok 1920 (compose_tiles self chars fg bg).
Proof.
  intros Hchars. unfold compose_tiles.
  change 1920%nat with (length (seq 0 24) * (length (seq 0 80) * 1 + 0) + 0)%nat.
  apply only_draws_bind; [|intros; apply only_draws_lift].
  apply only_draws_smapM. intros y _.
  apply only_draws_bind; [|intros; apply only_draws_lift].
  apply only_draws_smapM. intros x _.
  by apply only_draws_render_pos.
Qed.

Lemma only_draws_render self obs fgo bgo :
  only_draws self key_ok 1920 (render self obs fgo bgo).
Proof.
  intros st. rewrite render_run.
  destruct (foreground_of self obs fgo); [|no_draw].
  destruct (background_of self obs bgo); [|no_draw].
  destruct (tty_chars obs) as [chars|]; [|no_draw].
  apply only_draws_compose_tiles, np_clip_bytes.
Qed.

(** What asking for tiles does to a store. *)
Lemma draw_tile_lookup_mono self st key key' v :
  TILE_CACHE st !! key = Some v →
  TILE_CACHE (draw_tile self st key') !! key = Some v.
Proof.
  intros Hk. unfold draw_tile.
  destruct (TILE_CACHE st !! key') as [w|] eqn:Hk'; [done|].
  cbn [TILE_CACHE]. rewrite lookup_insert_ne; [done|]. congruence.
Qed.

Lemma foldl_draw_tile_lookup_mono self st keys key v :
  TILE_CACHE st !! key = Some v →
  TILE_CACHE (foldl (draw_tile self) st keys) !! key = Some v.
Proof.
  revert st. induction keys as [|k keys IH]; intros st Hk; [done|].
  simpl. by apply IH, draw_tile_lookup_mono.
Qed.

Lemma foldl_draw_tile_calls self st keys :
  ∃ new,
    backend_calls (foldl (draw_tile self) st keys) = backend_calls st ++ new
    ∧ (length new ≤ length keys)%nat
    ∧ NoDup new
    ∧ ∀ key, key ∈ new →
        key ∈ keys
        ∧ TILE_CACHE st !! key = None
        ∧ TILE_CACHE (foldl (draw_tile self) st keys) !! key
          = Some (tile_of self key).
Proof.
  revert st. induction keys as [|k keys IH]; intros st.
  { exists []. rewrite app_nil_r. split; [done|]. split; [done|].
    split; [constructor|]. by intros key ? %elem_of_nil. }
  cbn [foldl].
  destruct (IH (draw_tile self st k)) as (new & Hcalls & Hlen & Hnd & Hnew).
  destruct (TILE_CACHE st !! k) as [w|] eqn:Hk.
  - assert (Hst : draw_tile self st k = st) by (unfold draw_tile; by rewrite Hk).
    rewrite Hst in *.
    exists new. split; [done|]. split; [simpl; lia|]. split; [done|].
    intros key Hkey. destruct (Hnew key Hkey) as (Hin & Hnone & Hsome).
    split; [by right|]. done.
  - assert (Hst : draw_tile self st k
                  = {| TILE_CACHE := <[k := tile_of self k]> (TILE_CACHE st);
                       backend_calls := backend_calls st ++ [k] |})
      by (unfold draw_tile; by rewrite Hk).
    rewrite Hst in *. cbn [backend_calls TILE_CACHE] in Hcalls, Hnew.
    exists (k :: new). rewrite Hcalls, <- app_assoc.
    split; [done|]. split; [simpl; lia|].
    assert (Hfresh : k ∉ new).
    { intros Hin. destruct (Hnew k Hin) as (_ & Hnone & _).
      by rewrite lookup_insert_eq in Hnone. }
    split; [by constructor|].
    intros key [->|Hkey] %elem_of_cons.
    + split; [by left|]. split; [done|].
      apply foldl_draw_tile_lookup_mono. cbn [TILE_CACHE].
      by rewrite lookup_insert_eq.
    + destruct (Hnew key Hkey) as (Hin & Hnone & Hsome).
      split; [by right|]. split; [|done].
      rewrite lookup_insert_ne in Hnone; [done|]. by intros ->.
Qed.

(** X11: [render] never removes and never replaces an entry of the tile
    cache, whatever the cache holds and whether it returns or raises. *)
Theorem render_cache_monotone self obs fgo bgo st key v :
  TILE_CACHE st !! key = Some v →
  TILE_CACHE (snd (render self obs fgo bgo st)) !! key = Some v.
Proof.
  intros Hk. destruct (only_draws_render self obs fgo bgo st)
    as (keys & _ & _ & ->).
  by apply foldl_draw_tile_lookup_mono.
Qed.

(** X12: whatever the cache holds and whether it returns or raises, one
    call of [render] invokes the text backend at most 1920 times, each time
    on a key that the cache did not hold, never twice on the same key, and
    only for characters 1..255 other than the backtick; every key it was
    invoked on is cached afterwards with the cropped patch. *)
Theorem render_backend_calls self obs fgo bgo st :
  ∃ new,
    backend_calls (snd (render self obs fgo bgo st)) = backend_calls st ++ new
    ∧ (length new ≤ 1920)%nat
    ∧ NoDup new
    ∧ ∀ key, key ∈ new →
        key_ok key
        ∧ TILE_CACHE st !! key = None
        ∧ TILE_CACHE (snd (render self obs fgo bgo st)) !! key
          = Some (tile_of self key).
Proof.
  destruct (only_draws_render self obs fgo bgo st)
    as (keys & Hlen & Hok & ->).
  destruct (foldl_draw_tile_calls self st keys)
    as (new & Hcalls & Hlen' & Hnd & Hnew).
  exists new. split; [done|]. split; [lia|]. split; [done|].
  intros key Hkey. destruct (Hnew key Hkey) as (Hin & Hnone & Hsome).
  split; [|done].
  by apply (proj1 (Forall_forall _ _) Hok).
Qed.

Lemma render_cache_monotone_witness :
  TILE_CACHE (snd (render demo_renderer (plain_frame None) None None
                          stale_store))
    !! (65, (0, 0, 0), (0, 0, 0)) = Some [].
Proof. apply render_cache_monotone. reflexivity. Defined.

Lemma render_backend_calls_witness :
  ∃ new,
    backend_calls (snd (render demo_renderer (plain_frame (Some (5, 3)))
                               None None empty_store)) = new
    ∧ (length new ≤ 1920)%nat ∧ NoDup new.
Proof.
  destruct (render_backend_calls demo_renderer (plain_frame (Some (5, 3)))
              None None empty_store) as (new & Hcalls & Hlen & Hnd & _).
  exists new. split; [exact Hcalls|]. split; [exact Hlen | exact Hnd].
Defined.

Lemma foldl_draw_tile_accumulates self st keys :
  cache_sound self st → NoDup (backend_calls st) →
  Forall key_ok (backend_calls st) → Forall key_ok keys →
  NoDup (backend_calls (foldl (draw_tile self) st keys))
  ∧ Forall key_ok (backend_calls (foldl (draw_tile self) st keys)).
Proof.
  intros [_ Hdom] Hnd Hok Hkeys.
  destruct (foldl_draw_tile_calls self st keys)
    as (new & -> & _ & Hnd' & Hnew).
  split.
  - apply NoDup_app. split; [done|]. split; [|done].
    intros key Hin Hin'. destruct (Hnew key Hin') as (_ & Hnone & _).
    apply Hdom in Hin. rewrite Hnone in Hin. by destruct Hin.
  - apply Forall_app. split; [done|]. apply Forall_forall. intros key Hin.
    destruct (Hnew key Hin) as (Hin' & _).
    by apply (proj1 (Forall_forall _ _) Hkeys).
Qed.

Lemma accumulated_calls self st :
  accumulated self st →
  NoDup (backend_calls st) ∧ Forall key_ok (backend_calls st).
Proof.
  induction 1 as [|st obs fgo bgo Hacc [Hnd Hok]]; [split; constructor|].
  destruct (only_draws_render self obs fgo bgo st) as (keys & _ & Hkeys & ->).
  apply foldl_draw_tile_accumulates; [by apply accumulated_sound|done..].
Qed.

Lemma crop_16_8_at_most (a : image) :
  (length (crop_16_8 a) ≤ 16)%nat
  ∧ Forall (λ row, (length row ≤ 8)%nat) (crop_16_8 a).
Proof.
  unfold crop_16_8. split.
  - rewrite length_fmap, length_take. lia.
  - apply Forall_fmap, Forall_forall. intros row _. simpl.
    rewrite length_take. lia.
Qed.

(** X13: in every store that calls of [render] have accumulated from the
    empty cache, the cached keys are exactly the keys the text backend was
    invoked on, the backend was invoked at most once on each key, only for
    characters 1..255 other than the backtick, and every cached tile is the
    patch that the backend draws for its key, cropped: a bitmap of at most
    16 rows of at most 8 pixels. *)
Theorem accumulated_cache self st :
  accumulated self st →
  NoDup (backend_calls st)
  ∧ (∀ key, key ∈ backend_calls st ↔ is_Some (TILE_CACHE st !! key))
  ∧ ∀ c color background v,
      TILE_CACHE st !! (c, color, background) = Some v →
      v = crop_16_8 (_font self c color background)
      ∧ (length v ≤ 16)%nat ∧ Forall (λ row, (length row ≤ 8)%nat) v
      ∧ 1 ≤ c ≤ 255 ∧ c ≠ ord "`".
Proof.
  intros Hacc. destruct (accumulated_calls self st Hacc) as [Hnd Hok].
  destruct (accumulated_sound self st Hacc) as [Htiles Hdom].
  split; [done|]. split; [done|].
  intros c color background v Hv.
  pose proof (Htiles _ _ Hv) as ->. cbn [tile_of].
  split; [done|]. destruct (crop_16_8_at_most (_font self c color background)).
  split; [done|]. split; [done|].
  assert (Hin : (c, color, background) ∈ backend_calls st)
    by (apply Hdom; by eexists).
  exact (proj1 (Forall_forall _ _) Hok _ Hin).
Qed.

Lemma accumulated_cache_witness :
  NoDup (backend_calls
           (snd (render demo_renderer (plain_frame (Some (5, 3))) None None
                        empty_store))).
Proof.
  apply (accumulated_cache demo_renderer). apply acc_render, acc_empty.
Defined.

(** X14: a tile that one renderer has drawn is returned to every renderer:
    the key of the module-level cache does not name the font, so a second
    renderer that asks for the same character and colours gets the bitmap of
    the first, its own backend is not invoked and the store is left as it
    is. *)
Theorem tile_cache_shared self c color background st :
  ∃ tile st1,
    _render_char self c color background st = (Ok tile, st1)
    ∧ ∀ self', _render_char self' c color background st1 = (Ok tile, st1).
Proof.
  rewrite _render_char_run.
  destruct (TILE_CACHE st !! (c, color, background)) as [v|] eqn:Hk.
  - exists v, st. split; [done|]. intros self'.
    by rewrite _render_char_run, Hk.
  - eexists _, _. split; [reflexivity|]. intros self'.
    rewrite _render_char_run. cbn [TILE_CACHE].
    by rewrite lookup_insert_eq.
Qed.

Lemma draw_tile_cached self st key :
  is_Some (TILE_CACHE st !! key) → draw_tile self st key = st.
Proof. intros [v Hv]. unfold draw_tile. by rewrite Hv. Qed.

Lemma draw_tile_caches self st key :
  is_Some (TILE_CACHE (draw_tile self st key) !! key).
Proof.
  unfold draw_tile. destruct (TILE_CACHE st !! key) as [v|] eqn:Hv.
  - rewrite Hv. by eexists.
  - cbn [TILE_CACHE]. rewrite lookup_insert_eq. by eexists.
Qed.

Lemma foldl_draw_tile_cached self st keys :
  (∀ key, key ∈ keys → is_Some (TILE_CACHE st !! key)) →
  foldl (draw_tile self) st keys = st.
Proof.
  induction keys as [|k keys IH]; intros Hall; [done|].
  cbn [foldl]. rewrite draw_tile_cached by (apply Hall; by left).
  apply IH. intros key Hkey. apply Hall. by right.
Qed.

Lemma foldl_draw_tile_caches self st keys key :
  key ∈ keys → is_Some (TILE_CACHE (foldl (draw_tile self) st keys) !! key).
Proof.
  revert st. induction keys as [|k keys IH]; intros st Hin;
    [by apply elem_of_nil in Hin|].
  cbn [foldl]. apply elem_of_cons in Hin as [->|Hin]; [|by apply IH].
  destruct (draw_tile_caches self st k) as [v Hv].
  exists v. by apply foldl_draw_tile_lookup_mono.
Qed.

(** X15: rendering a frame again is served from the cache.  For a frame
    whose grids cover the 24 x 80 cells and a backend whose patches have at
    least 16 rows and 8 columns, a second [render] of the same frame, from
    the store that the first one left, returns the same image, does not
    invoke the text backend and leaves the cache as it is. *)
Theorem render_again host nh sysfont self obs fgo bgo st :
  init host nh sysfont = Ok self →
  (∀ c color background, at_least 16 8 (sysfont c color background)) →
  frame_covers obs fgo bgo →
  accumulated self st →
  let st1 := snd (render self obs fgo bgo st) in
  render self obs fgo bgo st1 = (fst (render self obs fgo bgo st), st1)
  ∧ is_ok (fst (render self obs fgo bgo st)).
Proof.
  intros Hinit Hfont ((chars & Hchars & Hcs) & Hfg & Hbg) Hacc st1.
  pose proof (accumulated_sound _ _ Hacc) as Hst.
  destruct (foreground_of_covers _ _ _ _ obs fgo Hinit Hfg) as (fg & Hfg' & Hfs).
  destruct (background_of_covers _ _ _ _ obs bgo Hinit Hbg) as (bg & Hbg' & Hbs).
  assert (Hsys : ∀ c color background,
            at_least 16 8 (_font self c color background)).
  { apply init_inv in Hinit as ->. exact Hfont. }
  destruct (render_spec self obs fgo bgo st chars fg bg)
    as (img & Himg & _ & _ & Hstore);
    [done.. | by apply covers_at_least | by apply covers_at_least
    | by apply covers_at_least |].
  assert (Hst1 : cache_sound self st1).
  { unfold st1. rewrite Hstore. by apply foldl_draw_tile_sound. }
  destruct (render_spec self obs fgo bgo st1 chars fg bg)
    as (img1 & Himg1 & _ & _ & Hstore1);
    [done.. | by apply covers_at_least | by apply covers_at_least
    | by apply covers_at_least |].
  split; [|by exists img].
  destruct (render_computes self obs fgo bgo st Hst) as [Hr _].
  destruct (render_computes self obs fgo bgo st1 Hst1) as [Hr1 _].
  rewrite Hr, <- Hr1.
  rewrite (surjective_pairing (render self obs fgo bgo st1)). f_equal.
  rewrite Hstore1. apply foldl_draw_tile_cached.
  intros key Hkey. unfold st1. rewrite Hstore.
  by apply foldl_draw_tile_caches.
Qed.

Lemma render_again_witness :
  let st1 := snd (render demo_renderer oversized_frame None None empty_store) in
  render demo_renderer oversized_frame None None st1
  = (fst (render demo_renderer oversized_frame None None empty_store), st1).
Proof.
  apply (render_again little nethack block_font);
    [apply demo_renderer_init | apply block_font_size
    | apply oversized_frame_covers | apply acc_empty].
Defined.

(** ** Patches of other sizes *)

Lemma crop_16_8_has_shape h w (a : image) :
  has_shape h w a → has_shape (16 `min` h) (8 `min` w) (crop_16_8 a).
Proof.
  intros [Hh Hw]. unfold crop_16_8. split.
  - by rewrite length_fmap, length_take, Hh.
  - apply Forall_fmap, Forall_take.
    eapply Forall_impl; [exact Hw|]. intros r Hr. simpl in *.
    by rewrite length_take, Hr.
Qed.

Section tiles_of_any_size.
Variable self : ImageRenderer.
Variables (a : grid) (fg bg : image).
Variables th tw : nat.
Hypothesis tile_shape : ∀ key, has_shape th tw (tile_of self key).
Hypothesis chars_size : at_least 24 80 a.
Hypothesis fg_size : at_least 24 80 fg.
Hypothesis bg_size : at_least 24 80 bg.

Lemma tile_at_cell_key x y :
  (y < 24)%nat → (x < 80)%nat →
  tile_at self (np_clip a 0 255) fg bg x y
  = Ok (tile_of self (cell_key a fg bg y x)).
Proof.
  intros Hy Hx.
  destruct (tile_at_spec self a fg bg chars_size fg_size bg_size x y Hy Hx)
    as (v & color & background & Hv & Hc & Hb & ->).
  unfold cell_key.
  by rewrite (cell_getitem2 _ _ _ _ _ Hv), (cell_getitem2 _ _ _ _ _ Hc),
    (cell_getitem2 _ _ _ _ _ Hb).
Qed.

Lemma row_tiles y :
  (y < 24)%nat →
  rmapM (λ x, tile_at self (np_clip a 0 255) fg bg x y) (seq 0 80)
  = Ok ((λ x, tile_of self (cell_key a fg bg y x)) <$> seq 0 80).
Proof.
  intros Hy. apply rmapM_ok. intros x Hx %elem_of_seq.
  apply tile_at_cell_key; lia.
Qed.

Lemma row_uncached_any_size y :
  (y < 24)%nat →
  ∃ row,
    row_uncached self (np_clip a 0 255) fg bg y = Ok row
    ∧ has_shape th (80 * tw) row
    ∧ ∀ x i j, (x < 80)%nat → (i < th)%nat → (j < tw)%nat →
        pixel row i (x * tw + j)
        = pixel (tile_of self (cell_key a fg bg y x)) i j.
Proof.
  intros Hy. unfold row_uncached. rewrite (row_tiles y Hy).
  cbn [mbind result_bind rbind].
  destruct (hstack_spec th tw
              ((λ x, tile_of self (cell_key a fg bg y x)) <$> seq 0 80))
    as (row & -> & Hshape & Hpix).
  { done. }
  { apply Forall_fmap, Forall_forall. intros x _. apply tile_shape. }
  rewrite length_fmap, length_seq in Hshape.
  exists row. split; [done|]. split; [done|].
  intros x i j Hx Hi Hj.
  apply (Hpix x); [|done..].
  by rewrite list_lookup_fmap, lookup_seq_lt.
Qed.

Lemma compose_uncached_any_size :
  ∃ img,
    compose_uncached self (np_clip a 0 255) fg bg = Ok img
    ∧ has_shape (24 * th) (80 * tw) img
    ∧ ∀ y x i j, (y < 24)%nat → (x < 80)%nat → (i < th)%nat → (j < tw)%nat →
        pixel img (y * th + i) (x * tw + j)
        = pixel (tile_of self (cell_key a fg bg y x)) i j.
Proof.
  unfold compose_uncached.
  destruct (rmapM_is_ok (row_uncached self (np_clip a 0 255) fg bg)
              (seq 0 24)) as (rows & -> & Hlen & Hrows).
  { intros y Hy %elem_of_seq.
    destruct (row_uncached_any_size y) as (row & -> & _); [lia|by eexists]. }
  rewrite length_seq in Hlen. cbn [mbind result_bind rbind].
  destruct (vstack_spec th (80 * tw) rows) as (img & -> & Hshape & Hpix).
  { intros ->. done. }
  { apply Forall_lookup_2. intros y r Hr.
    pose proof (lookup_lt_Some _ _ _ Hr) as Hy. rewrite Hlen in Hy.
    destruct (Hrows y y) as (r' & Hr' & Hlook); [by rewrite lookup_seq_lt|].
    rewrite Hr in Hlook. injection Hlook as <-.
    destruct (row_uncached_any_size y) as (row & Hrow & Hsh & _); [lia|].
    rewrite Hrow in Hr'. by injection Hr' as <-. }
  rewrite Hlen in Hshape. exists img. split; [done|]. split; [done|].
  intros y x i j Hy Hx Hi Hj.
  destruct (row_uncached_any_size y) as (row & Hrow & _ & Hcells); [lia|].
  destruct (Hrows y y) as (r & Hr & Hlook); [by rewrite lookup_seq_lt|].
  rewrite Hrow in Hr. injection Hr as <-.
  rewrite (Hpix y _ i _ Hlook Hi). by apply Hcells.
Qed.
End tiles_of_any_size.

(** X16: [_render_char] crops a patch and never pads it.  With a text
    backend whose patches all have [h] rows and [w] columns, and a frame
    whose grids cover the 24 x 80 cells, [render] returns an image of
    [24 * min(16, h)] rows and [80 * min(8, w)] columns, in which cell
    [(y, x)] occupies the block at row [y * min(16, h)], column
    [x * min(8, w)]: smaller patches give a smaller image, not one of
    384 x 640. *)
Theorem render_uniform_patches host nh sysfont self obs fgo bgo st (h w : nat) :
  init host nh sysfont = Ok self →
  (∀ c color background, has_shape h w (sysfont c color background)) →
  frame_covers obs fgo bgo →
  accumulated self st →
  ∃ chars fg bg img,
    tty_chars obs = Some chars
    ∧ foreground_of self obs fgo = Ok fg
    ∧ background_of self obs bgo = Ok bg
    ∧ fst (render self obs fgo bgo st) = Ok img
    ∧ has_shape (24 * (16 `min` h)) (80 * (8 `min` w)) img
    ∧ ∀ y x i j, (y < 24)%nat → (x < 80)%nat →
        (i < 16 `min` h)%nat → (j < 8 `min` w)%nat →
        pixel img (y * (16 `min` h) + i) (x * (8 `min` w) + j)
        = pixel (let '(c, color, background) := cell_key chars fg bg y x in
                 sysfont c color background) i j.
Proof.
  intros Hinit Hfont ((chars & Hchars & Hcs) & Hfg & Hbg) Hacc.
  pose proof (accumulated_sound _ _ Hacc) as Hst.
  destruct (foreground_of_covers _ _ _ _ obs fgo Hinit Hfg) as (fg & Hfg' & Hfs).
  destruct (background_of_covers _ _ _ _ obs bgo Hinit Hbg) as (bg & Hbg' & Hbs).
  assert (Hsys : _font self = sysfont) by (by apply init_inv in Hinit as ->).
  destruct (compose_uncached_any_size self chars fg bg
              (16 `min` h) (8 `min` w))
    as (img & Himg & Hshape & Hpix);
    [| by apply covers_at_least | by apply covers_at_least
     | by apply covers_at_least |].
  { intros [[c color] background]. cbn [tile_of]. rewrite Hsys.
    apply crop_16_8_has_shape, Hfont. }
  exists chars, fg, bg, img. repeat (split; [done|]). split; [|split; [done|]].
  - destruct (render_computes self obs fgo bgo st Hst) as [-> _].
    unfold render_uncached. rewrite Hfg', Hbg', Hchars.
    by cbn [obs_get mbind result_bind rbind mret result_ret].
  - intros y x i j Hy Hx Hi Hj. rewrite (Hpix y x i j) by done.
    destruct (cell_key chars fg bg y x) as [[c color] background].
    cbn [tile_of]. rewrite Hsys. apply crop_16_8_pixel; lia.
Qed.

Lemma small_font_shape c color background :
  has_shape 12 7 (small_font c color background).
Proof.
  unfold small_font, range. split; [by rewrite !length_fmap, length_seq|].
  apply Forall_fmap, Forall_forall. intros i _. unfold compose.
  by rewrite !length_fmap, length_seq.
Qed.

Lemma plain_frame_covers cursor :
  cursor_ok (plain_frame cursor) → frame_covers (plain_frame cursor) None None.
Proof.
  intros Hcur. split; [|split; [|split]]; [| |exact I|exact Hcur].
  - eexists. split; [reflexivity|]. exists 24%nat, 80%nat.
    split; [apply constant_grid_shape|lia].
  - eexists. split; [reflexivity|]. exists 24%nat, 80%nat.
    split; [apply constant_grid_shape|lia].
Qed.

Lemma render_uniform_patches_witness :
  ∃ img,
    fst (render small_renderer (plain_frame None) None None empty_store)
    = Ok img
    ∧ has_shape 288 560 img.
Proof.
  destruct (render_uniform_patches little nethack small_font small_renderer
              (plain_frame None) None None empty_store 12 7)
    as (chars & fg & bg & img & _ & _ & _ & Himg & Hshape & _);
    [apply init_ok | apply small_font_shape
    | apply plain_frame_covers; exact I | apply acc_empty |].
  exists img. split; [exact Himg | exact Hshape].
Defined.

Lemma hstack_cases (tiles : list image) :
  is_ok (hstack tiles) ∨ hstack tiles = Raise ValueError.
Proof.
  unfold hstack. destruct tiles as [|t ts]; [by right|].
  destruct (forallb _ ts); [left; by eexists|by right].
Qed.

Lemma hstack_ragged (tiles : list image) i j t1 t2 :
  tiles !! i = Some t1 → tiles !! j = Some t2 → length t1 ≠ length t2 →
  hstack tiles = Raise ValueError.
Proof.
  intros H1 H2 Hne. unfold hstack. destruct tiles as [|t ts]; [done|].
  destruct (forallb (λ u, Nat.eqb (length u) (length t)) ts) eqn:Hall; [|done].
  exfalso. apply Hne.
  assert (Hsame : ∀ k u, (t :: ts) !! k = Some u → length u = length t).
  { intros [|k] u; simpl; [by intros [= ->]|]. intros Hu.
    apply Nat.eqb_eq.
    apply (proj1 (forallb_forall _ ts) Hall u).
    by apply list_elem_of_In, list_elem_of_lookup_2 with k. }
  by rewrite (Hsame i t1 H1), (Hsame j t2 H2).
Qed.

(** X17: the tiles of a row must have the same height.  When the grids
    cover the 24 x 80 cells and, in some row, the cropped patches of two
    cells differ in their number of rows, [np.hstack] fails and [render]
    raises [ValueError]. *)
Theorem render_ragged_patches self obs fgo bgo st (chars : grid) (fg bg : image)
    (y x1 x2 : nat) :
  accumulated self st →
  tty_chars obs = Some chars →
  foreground_of self obs fgo = Ok fg →
  background_of self obs bgo = Ok bg →
  at_least 24 80 chars → at_least 24 80 fg → at_least 24 80 bg →
  (y < 24)%nat → (x1 < 80)%nat → (x2 < 80)%nat →
  length (tile_of self (cell_key chars fg bg y x1))
  ≠ length (tile_of self (cell_key chars fg bg y x2)) →
  fst (render self obs fgo bgo st) = Raise ValueError.
Proof.
  intros Hacc Hchars Hfg Hbg Hcs Hfs Hbs Hy Hx1 Hx2 Hne.
  destruct (render_computes self obs fgo bgo st (accumulated_sound _ _ Hacc))
    as [-> _].
  unfold render_uncached. rewrite Hfg, Hbg, Hchars.
  cbn [obs_get mbind result_bind rbind mret result_ret].
  unfold compose_uncached.
  assert (Hrow : ∀ y', (y' < 24)%nat →
            row_uncached self (np_clip chars 0 255) fg bg y'
            = hstack ((λ x, tile_of self (cell_key chars fg bg y' x))
                      <$> seq 0 80)).
  { intros y' Hy'. unfold row_uncached.
    by rewrite (row_tiles self chars fg bg Hcs Hfs Hbs y' Hy'). }
  rewrite (rmapM_raises _ (seq 0 24) ValueError y); [done| | |].
  - intros y' Hy' %elem_of_seq. rewrite Hrow by lia. apply hstack_cases.
  - apply elem_of_seq. lia.
  - rewrite Hrow by done.
    apply (hstack_ragged _ x1 x2 (tile_of self (cell_key chars fg bg y x1))
             (tile_of self (cell_key chars fg bg y x2))); [| |exact Hne];
      by rewrite list_lookup_fmap, lookup_seq_lt.
Qed.

Lemma render_ragged_patches_witness :
  fst (render ragged_renderer letters_frame None None empty_store)
  = Raise ValueError.
Proof.
  eapply (render_ragged_patches ragged_renderer letters_frame None None
            empty_store _ _ _ 0 0 1);
    [apply acc_empty | reflexivity | vm_compute; reflexivity
    | vm_compute; reflexivity | | | | lia | lia | lia
    | vm_compute; discriminate].
  - split; [by rewrite length_replicate|].
    apply Forall_replicate. cbn [length]. rewrite length_replicate. lia.
  - apply (has_shape_at_least 24 80); [|lia..].
    split; [reflexivity | repeat constructor].
  - apply (has_shape_at_least 24 80); [|lia..].
    apply np_zeros_shape.
Defined.
